(** * JetReconstructionBenchmarks: the FastJet timing harnesses

    A shallow embedding of [fastjet-utils.cc] ([read_input_events]),
    [fastjet-finder.cc] and [fastjet-inclusive.cc] (their [main]), with
    the debug dump of the finder ([dump_clusterseq]) and the two event
    generators, [genevts-AA.cc] and [genevts-ee.cc].

    - A C++ [double] is a binary64 primitive float ([PrimFloat.float]) with
      the IEEE operations of the Standard Library; [int], [long] and
      [size_t] values are integers in [Z], their conversions written out.
    - The external collaborators are inputs of the model: the HepMC3 reader
      (what each [read_event] call decodes), the FastJet engine (an opaque
      cluster sequence and its selectors), the steady clock (the elapsed
      microseconds it measures for each trial) and the parsed command line.
    - Output, file and engine calls are recorded in order in a trace; a
      call of [exit] stops the run with its code, and an exception that
      nothing catches (a numeric option of [fastjet-inclusive] that does
      not convert) aborts it.
    - The runs modelled are those in which a dump file, when one is
      asked for, opens: the source does not test the handle, and what a
      null handle leads to is not part of the model.  The statements on
      exit codes are kept to runs that open no dump file.
    - Loops run on fuel, enough for every iteration the source can make;
      running out of it is a result of its own, [OutOfFuel], which no run
      of [main] ever has ([main_ends]).
    - Each arithmetic operation on doubles rounds once, as written in the
      source (no fused multiply-add). *)

From Stdlib Require Import ZArith List String Bool Lia.
From Stdlib Require Import Uint63 Floats.
Import ListNotations.

Local Open Scope Z_scope.

(** ** C++ doubles and the integer conversions the harness uses *)

Module Double.

(** [double(n)] for a non-negative integer below [2^63]. *)
Definition of_nonneg (n : Z) : float := PrimFloat.of_uint63 (Uint63.of_Z n).

(** [double(i)] for an [int] or [long]: exact below [2^53]. *)
Definition of_int (i : Z) : float :=
  if i <? 0 then (- of_nonneg (- i))%float else of_nonneg i.

(** [double(v.size())]: a [std::vector] never holds [2^63] elements
    or more ([max_size]), so the [size_t] converts as a non-negative
    63-bit integer. *)
Definition of_size (n : nat) : float := of_nonneg (Z.of_nat n).


(** Classification through the IEEE view of a double. *)
Definition is_nan (x : float) : bool :=
  match Prim2SF x with S754_nan => true | _ => false end.

Definition is_inf (x : float) : bool :=
  match Prim2SF x with S754_infinity _ => true | _ => false end.


End Double.

(** ** Data model *)

(** [fastjet::PseudoJet] as the harness builds it: a four-momentum. *)
Record PseudoJet : Type := mkPseudoJet {
  px : float;
  py : float;
  pz : float;
  E : float
}.

(** [HepMC3::GenParticle]: the fields the harness reads. *)
Record GenParticle : Type := mkGenParticle {
  status : Z;
  momentum : PseudoJet
}.

(** [HepMC3::GenEvent]: its particles, in file order. *)
Record GenEvent : Type := mkGenEvent {
  particles : list GenParticle
}.

(** An event of the store: the input particles of one collision. *)
Definition Event : Type := list PseudoJet.

Inductive JetAlgorithm : Type :=
| kt_algorithm
| cambridge_aachen_algorithm
| antikt_algorithm
| genkt_algorithm
| ee_kt_algorithm
| ee_genkt_algorithm.

Inductive Strategy : Type := Best | N2Plain | N2Tiled.

Inductive RecombinationScheme : Type := E_scheme.

(** [fastjet::JetDefinition], one constructor per overload the harness
    calls. *)
Inductive JetDefinition : Type :=
| JetDefinition_R_p (a : JetAlgorithm) (R p : float)
                    (r : RecombinationScheme) (s : Strategy)
| JetDefinition_plain (a : JetAlgorithm)
                      (r : RecombinationScheme) (s : Strategy)
| JetDefinition_R (a : JetAlgorithm) (R : float)
                  (r : RecombinationScheme) (s : Strategy).

(** Where the jet dump goes: [stdout] or an opened file. *)
Inductive dump_target : Type :=
| to_stdout
| to_file (path : string).

(** ** Observable effects *)

(** One constructor per print statement of the two programs.  [MsgHelp]
    is the help of the finder; [MsgUsageHelp] is the [-h] text of the
    inclusive harness, which shows the values that [maxevents] and
    [trials] hold when it is printed. *)
Inductive message : Type :=
| MsgHelp
| MsgUsageHelp (maxevents trials : Z)
| MsgUsage
| MsgNoInputFile
| MsgOnlyOneInputFile
| MsgUnexpectedArgs
| MsgArgs (args : list string)
| MsgSelectionCount (sum : Z)
| MsgRead (events_parsed : Z) (fname : string)
| MsgUnknownAlgorithm (alg : string)
| MsgStrategy (mystrategy : string) (power : float) (algorithm : JetAlgorithm)
| MsgStrategyAlg (mystrategy : string) (power : Z)
| MsgTrial (trial : Z)
| MsgDijmax (v : float)
| MsgElapsed (us_elapsed : float)
| MsgProcessed (nevents : nat) (trials : Z)
| MsgTotalTime (t : float)
| MsgTimePerEvent (mean sigma : float)
| MsgLowest (t : float).

(** What a run does to the outside, in order.  [Cluster], [DumpJets] and
    [DumpClusterSeq] carry the values of the loop variables [trial] and
    [ievt] in scope when they happen. *)
Inductive effect : Type :=
| Cout (m : message)
| Cerr (m : message)
| OpenReader (fname : string)
| ReadEvent
| Fopen (path : string)
| Cluster (trial ievt : Z) (jd : JetDefinition) (input_particles : Event)
| DumpJets (fh : dump_target) (trial ievt1 : Z) (jets : list PseudoJet)
| DumpClusterSeq (trial ievt : Z).

Definition trace : Type := list effect.

(** ** Runs: a trace and how the run ended *)

(** How a run ends: [main] returns, [exit] is called, or an exception
    leaves [main] uncaught and the run is aborted ([std::terminate]). *)
Inductive result (A : Type) : Type :=
| Val (a : A)
| Exited (code : Z)
| Aborted
| OutOfFuel.

Arguments Val {A} a.
Arguments Exited {A} code.
Arguments Aborted {A}.
Arguments OutOfFuel {A}.

Definition M (A : Type) : Type := result A * trace.

Definition ret {A : Type} (a : A) : M A := (Val a, []).

Definition bind {A B : Type} (m : M A) (f : A -> M B) : M B :=
  match m with
  | (Val a, t) => let (r, t') := f a in (r, t ++ t')
  | (Exited c, t) => (Exited c, t)
  | (Aborted, t) => (Aborted, t)
  | (OutOfFuel, t) => (OutOfFuel, t)
  end.

Definition emit (e : effect) : M unit := (Val tt, [e]).
Definition exit {A : Type} (code : Z) : M A := (Exited code, []).
Definition throw {A : Type} : M A := (Aborted, []).
Definition out_of_fuel {A : Type} : M A := (OutOfFuel, []).

Arguments ret : simpl never.
Arguments bind : simpl never.
Arguments emit : simpl never.
Arguments exit : simpl never.
Arguments throw : simpl never.
Arguments out_of_fuel : simpl never.

Declare Scope run_scope.
Delimit Scope run_scope with run.
Notation "x <- m ;; k" := (bind m (fun x => k))
  (at level 61, m at next level, right associativity) : run_scope.
Notation "' p <- m ;; k" := (bind m (fun p => k))
  (at level 61, p pattern, m at next level, right associativity) : run_scope.
Notation "m ;; k" := (bind m (fun _ => k))
  (at level 61, right associativity) : run_scope.
Local Open Scope run_scope.

Definition EXIT_SUCCESS : Z := 0.
Definition EXIT_FAILURE : Z := 1.


(** ** [fastjet-utils.cc]: loading the event store *)

(** [HepMC3::ReaderAscii]: whether the reader has failed, and what the
    coming [read_event] calls will find in the file ([None]: an event that
    does not decode).  Reading past the last one fails. *)
Record ReaderAscii : Type := mkReader {
  failed : bool;
  pending : list (option GenEvent)
}.

Definition read_event (input_file : ReaderAscii) : GenEvent * ReaderAscii :=
  match pending input_file with
  | Some evt :: rest => (evt, mkReader false rest)
  | None :: rest => (mkGenEvent [], mkReader true rest)
  | [] => (mkGenEvent [], mkReader true [])
  end.

(** The loop over [evt.particles()], lines 52-59. *)
Fixpoint collect_particles (ps : list GenParticle) (input_particles : Event)
  : Event :=
  match ps with
  | [] => input_particles
  | p :: ps' =>
      if status p =? 1
      then collect_particles ps'
             (input_particles ++
                [mkPseudoJet (px (momentum p)) (py (momentum p))
                             (pz (momentum p)) (E (momentum p))])
      else collect_particles ps' input_particles
  end.

(** The [while] loop, lines 36-61. *)
Fixpoint read_loop (fuel : nat) (maxevents : Z) (input_file : ReaderAscii)
    (events_parsed : Z) (events : list Event) : M (Z * list Event) :=
  match fuel with
  | O => out_of_fuel
  | S fuel' =>
      if negb (failed input_file) then
        if (0 <=? maxevents) && (maxevents <=? events_parsed)
        then ret (events_parsed, events)
        else
          emit ReadEvent ;;
          let (evt, input_file') := read_event input_file in
          if failed input_file' then ret (events_parsed, events)
          else
            let input_particles := collect_particles (particles evt) [] in
            read_loop fuel' maxevents input_file' (events_parsed + 1)
                      (events ++ [input_particles])
      else ret (events_parsed, events)
  end.

(** [read_input_events(fname, maxevents)]; [fs] is the file system: the
    reader that opening [fname] gives. *)
Definition read_input_events (fs : string -> ReaderAscii) (fname : string)
    (maxevents : Z) : M (list Event) :=
  emit (OpenReader fname) ;;
  let input_file := fs fname in
  '(events_parsed, events) <-
     read_loop (S (List.length (pending input_file))) maxevents input_file 0 [] ;;
  emit (Cout (MsgRead events_parsed fname)) ;;
  ret events.

(** ** The timing harness *)

(** The three accumulators of the trial loop. *)
Record timing : Type := mkTiming {
  time_total : float;
  time_total2 : float;
  time_lowest : float
}.

(** The four numbers of the final report (lines 240-242): the mean time of
    a trial and the per-event mean, deviation and lowest time. *)
Record summary : Type := mkSummary {
  mean_time : float;
  mean_per_event : float;
  sigma_per_event : float;
  lowest_per_event : float
}.

(** The default radius: the double nearest to [0.4]. *)
Definition default_R : float := 0x1.999999999999ap-2.

(** [size_t ievt = i] for an [int] [i]. *)
Definition size_t_of_int (i : Z) : Z := i mod 2 ^ 64.

(** The outside of a run: the FastJet engine (an opaque cluster sequence,
    its constructor and its selectors), the file system (the reader a file
    name opens) and the steady clock
    ([double(duration_cast<microseconds>(stop_t - start_t).count())] as
    measured in each trial). *)
Record World : Type := mkWorld {
  ClusterSequence : Type;
  new_ClusterSequence : Event -> JetDefinition -> ClusterSequence;
  inclusive_jets : ClusterSequence -> float -> list PseudoJet;
  exclusive_jets_dcut : ClusterSequence -> float -> list PseudoJet;
  exclusive_jets_njets : ClusterSequence -> Z -> list PseudoJet;
  sorted_by_pt : list PseudoJet -> list PseudoJet;
  fs : string -> ReaderAscii;
  us_elapsed : Z -> float
}.

(** *** The loops shared by the two programs *)

Section Loops.

Variable us_elapsed : Z -> float.
Variable events : list Event.
(** The body of the loop over events, given [trial], [ievt] and
    [events[ievt]]. *)
Variable body : Z -> Z -> Event -> M unit.

(** [for (size_t ievt = ...; ievt < events.size(); ++ievt)] *)
Fixpoint event_loop (fuel : nat) (trial ievt : Z) : M unit :=
  match fuel with
  | O => out_of_fuel
  | S fuel' =>
      if ievt <? Z.of_nat (List.length events) then
        body trial ievt (nth (Z.to_nat ievt) events []) ;;
        event_loop fuel' trial (ievt + 1)
      else ret tt
  end.

Variable first_event : Z.
Variable trials : Z.

(** [for (long trial = 0; trial < trials; ++trial)], lines 189-228 of
    the finder and 152-176 of the inclusive harness. *)
Fixpoint trial_loop (fuel : nat) (trial : Z) (acc : timing) : M timing :=
  match fuel with
  | O => out_of_fuel
  | S fuel' =>
      if trial <? trials then
        emit (Cout (MsgTrial trial)) ;;
        event_loop (S (List.length events)) trial first_event ;;
        let us := us_elapsed trial in
        emit (Cout (MsgElapsed us)) ;;
        trial_loop fuel' (trial + 1)
          (mkTiming (time_total acc + us)
                    (time_total2 acc + us * us)
                    (if (us <? time_lowest acc)%float
                     then us else time_lowest acc))
      else ret acc
  end.

(** Lines 185-188. *)
Definition initial_timing : timing := mkTiming 0 0 1e20.

(** The statistics stage: the computation, lines 229-238 (177-186). *)
Definition summarize (acc : timing) : summary :=
  let time_total := (time_total acc / Double.of_int trials)%float in
  let time_total2 := (time_total2 acc / Double.of_int trials)%float in
  let sigma :=
    if 1 <? trials
    then PrimFloat.sqrt
           (Double.of_int trials / Double.of_int (trials - 1)
            * (time_total2 - time_total * time_total))%float
    else 0%float in
  let nevents := Double.of_size (List.length events) in
  let mean_per_event := (time_total / nevents)%float in
  let sigma_per_event := (sigma / nevents)%float in
  let time_lowest := (time_lowest acc / nevents)%float in
  mkSummary time_total mean_per_event sigma_per_event time_lowest.

(** The four lines of the report, lines 239-242 (187-190). *)
Definition report (s : summary) : trace :=
  [Cout (MsgProcessed (List.length events) trials);
   Cout (MsgTotalTime (mean_time s));
   Cout (MsgTimePerEvent (mean_per_event s) (sigma_per_event s));
   Cout (MsgLowest (lowest_per_event s))].

Definition statistics (acc : timing) : M summary :=
  let s := summarize acc in
  emit (Cout (MsgProcessed (List.length events) trials)) ;;
  emit (Cout (MsgTotalTime (mean_time s))) ;;
  emit (Cout (MsgTimePerEvent (mean_per_event s) (sigma_per_event s))) ;;
  emit (Cout (MsgLowest (lowest_per_event s))) ;;
  ret s.

(** The trials followed by the statistics. *)
Definition benchmark : M summary :=
  acc <- trial_loop (S (Z.to_nat trials)) 0 initial_timing ;;
  statistics acc.

End Loops.

Definition strategy_of (mystrategy : string) : Strategy :=
  if String.eqb mystrategy "N2Plain" then N2Plain
  else if String.eqb mystrategy "N2Tiled" then N2Tiled
  else Best.

(** Lines 180-185 (141-146): the handle that [fopen] returns is used as
    it is; the model is of the runs where the file opens. *)
Definition open_dump (path : string) : M dump_target :=
  if String.eqb path "-" then ret to_stdout
  else emit (Fopen path) ;; ret (to_file path).

(** *** [fastjet-finder.cc] *)

Module Finder.

Section Program.

Variable w : World.

(** The command line after [opts.parse]: the variables the options
    assign, whether each selection option is set and its value, and
    [opts.non_option_args()]. *)
Record options : Type := mkOptions {
  help_count : Z;
  maxevents : Z;
  skip_events : Z;
  trials : Z;
  mystrategy : string;
  power : float;
  alg : string;
  R : float;
  ptmin_option : option float;
  dijmax_option : option float;
  njets_option : option Z;
  dump_option : option string;
  debug_clusterseq_option : bool;
  non_option_args : list string
}.

Definition is_set {A : Type} (o : option A) : bool :=
  match o with Some _ => true | None => false end.

(** The jet definition of [run_fastjet_clustering], lines 39-47. *)
Definition jet_definition (strategy : Strategy) (algorithm : JetAlgorithm)
    (R p : float) : JetDefinition :=
  let recomb_scheme := E_scheme in
  match algorithm with
  | genkt_algorithm | ee_genkt_algorithm =>
      JetDefinition_R_p algorithm R p recomb_scheme strategy
  | ee_kt_algorithm => JetDefinition_plain algorithm recomb_scheme strategy
  | _ => JetDefinition_R algorithm R recomb_scheme strategy
  end.

Definition run_fastjet_clustering (input_particles : Event)
    (strategy : Strategy) (algorithm : JetAlgorithm) (R p : float)
  : ClusterSequence w :=
  new_ClusterSequence w input_particles
                      (jet_definition strategy algorithm R p).

(** Lines 142-174: the algorithm and the power in force. *)
Definition select_algorithm (alg : string) (power : float)
  : M (JetAlgorithm * float) :=
  if negb (String.eqb alg "") then
    if String.eqb alg "AntiKt" then ret (antikt_algorithm, (-1)%float)
    else if String.eqb alg "CA" then ret (cambridge_aachen_algorithm, 0%float)
    else if String.eqb alg "Kt" then ret (kt_algorithm, 1%float)
    else if String.eqb alg "GenKt" then ret (genkt_algorithm, power)
    else if String.eqb alg "Durham" then ret (ee_kt_algorithm, 1%float)
    else if String.eqb alg "EEKt" then ret (ee_genkt_algorithm, power)
    else emit (Cout (MsgUnknownAlgorithm alg)) ;; exit 1
  else
    if (power =? -1)%float then ret (antikt_algorithm, power)
    else if (power =? 0)%float then ret (cambridge_aachen_algorithm, power)
    else if (power =? 1)%float then ret (kt_algorithm, power)
    else ret (genkt_algorithm, power).

(** The body of the loop over events, lines 193-219. *)
Definition process_event (o : options) (strategy : Strategy)
    (algorithm : JetAlgorithm) (power : float) (dump_fh : dump_target)
    (trial ievt : Z) (event : Event) : M unit :=
  let cluster_sequence :=
    run_fastjet_clustering event strategy algorithm (R o) power in
  emit (Cluster trial ievt (jet_definition strategy algorithm (R o) power)
                event) ;;
  final_jets <-
    match ptmin_option o, dijmax_option o, njets_option o with
    | Some ptmin, _, _ =>
        ret (sorted_by_pt w (inclusive_jets w cluster_sequence ptmin))
    | None, Some dijmax, _ =>
        emit (Cout (MsgDijmax dijmax)) ;;
        ret (sorted_by_pt w (exclusive_jets_dcut w cluster_sequence dijmax))
    | None, None, Some njets =>
        ret (sorted_by_pt w (exclusive_jets_njets w cluster_sequence njets))
    | None, None, None => ret []
    end ;;
  if is_set (dump_option o) && (trial =? 0) then
    emit (DumpJets dump_fh trial (ievt + 1) final_jets) ;;
    if debug_clusterseq_option o
    then emit (DumpClusterSeq trial ievt)
    else ret tt
  else ret tt.

(** Lines 104-110. *)
Definition show_help (o : options) : M unit :=
  if help_count o =? 1
  then emit (Cout MsgHelp) ;; exit EXIT_SUCCESS
  else ret tt.

(** Lines 112-120: a missing or a second file name is reported and the
    run goes on with the empty name. *)
Definition get_input_file (o : options) : M string :=
  match non_option_args o with
  | [f] => ret f
  | [] => emit (Cerr MsgNoInputFile) ;; ret ""%string
  | _ => emit (Cerr MsgOnlyOneInputFile) ;; ret ""%string
  end.

(** Line 123. *)
Definition selection_count (o : options) : Z :=
  Z.b2z (is_set (njets_option o))
  + Z.b2z (is_set (dijmax_option o))
  + Z.b2z (is_set (ptmin_option o)).

(** Lines 122-128. *)
Definition check_selection (o : options) : M unit :=
  let sum := selection_count o in
  if negb (sum =? 1)
  then emit (Cerr (MsgSelectionCount sum)) ;; exit EXIT_FAILURE
  else ret tt.

(** Lines 178-183. *)
Definition open_dump_file (o : options) : M dump_target :=
  match dump_option o with
  | Some path => open_dump path
  | None => ret to_stdout
  end.

Definition main (o : options) : M Z :=
  show_help o ;;
  input_file <- get_input_file o ;;
  check_selection o ;;
  events <- read_input_events (fs w) input_file (maxevents o) ;;
  let strategy := strategy_of (mystrategy o) in
  '(algorithm, power) <- select_algorithm (alg o) (power o) ;;
  emit (Cout (MsgStrategy (mystrategy o) power algorithm)) ;;
  dump_fh <- open_dump_file o ;;
  benchmark (us_elapsed w) events
            (process_event o strategy algorithm power dump_fh)
            (size_t_of_int (skip_events o)) (trials o) ;;
  ret 0.

End Program.

End Finder.

(** *** [fastjet-inclusive.cc] *)

Module Inclusive.

Section Program.

Variable w : World.

(** The local variables that the options assign, lines 47-57. *)
Record vars : Type := mkVars {
  maxevents : Z;
  trials : Z;
  mystrategy : string;
  dump : bool;
  power : Z;
  R : float;
  ptmin : float;
  dump_file : string
}.

Definition defaults : vars :=
  mkVars (-1) 8 "Best" false (-1) default_R 0.5 "".

(** What one call of [getopt] returns, with what [stoi] or [stod] makes
    of its argument: a value, or, for [opt_throws], the exception
    ([std::invalid_argument], [std::out_of_range]) that [-m], [-n], [-p],
    [-R] or [-P] raises on an argument that does not convert.  [opt_other]
    is any character outside the option string (the [default] case). *)
Inductive getopt_item : Type :=
| opt_m (max_events : Z)
| opt_n (n : Z)
| opt_s (s : string)
| opt_p (p : Z)
| opt_R (r : float)
| opt_P (pt : float)
| opt_d (file : string)
| opt_throws
| opt_h
| opt_other.

(** The command line as [getopt] splits it: the options in order, then
    [argv[optind]] to [argv[argc-1]]. *)
Record command_line : Type := mkCommandLine {
  getopt_items : list getopt_item;
  operands : list string
}.

(** The [while ((opt = getopt(...)) != -1)] loop, lines 62-103.  Nothing
    catches the exception of a conversion, lines 65-80. *)
Fixpoint parse_options (items : list getopt_item) (v : vars) : M vars :=
  match items with
  | [] => ret v
  | item :: rest =>
      match item with
      | opt_m x =>
          parse_options rest
            (mkVars x (trials v) (mystrategy v) (dump v) (power v) (R v)
                    (ptmin v) (dump_file v))
      | opt_n x =>
          parse_options rest
            (mkVars (maxevents v) x (mystrategy v) (dump v) (power v) (R v)
                    (ptmin v) (dump_file v))
      | opt_s x =>
          parse_options rest
            (mkVars (maxevents v) (trials v) x (dump v) (power v) (R v)
                    (ptmin v) (dump_file v))
      | opt_p x =>
          parse_options rest
            (mkVars (maxevents v) (trials v) (mystrategy v) (dump v) x (R v)
                    (ptmin v) (dump_file v))
      | opt_R x =>
          parse_options rest
            (mkVars (maxevents v) (trials v) (mystrategy v) (dump v) (power v)
                    x (ptmin v) (dump_file v))
      | opt_P x =>
          parse_options rest
            (mkVars (maxevents v) (trials v) (mystrategy v) (dump v) (power v)
                    (R v) x (dump_file v))
      | opt_d x =>
          parse_options rest
            (mkVars (maxevents v) (trials v) (mystrategy v) true (power v)
                    (R v) (ptmin v) x)
      | opt_throws => throw
      | opt_h =>
          emit (Cout (MsgUsageHelp (maxevents v) (trials v))) ;; exit (-1)
      | opt_other => emit (Cout MsgUsage) ;; exit EXIT_FAILURE
      end
  end.

(** Lines 132-137. *)
Definition select_algorithm (power : Z) : JetAlgorithm :=
  if power =? 0 then cambridge_aachen_algorithm
  else if power =? 1 then kt_algorithm
  else antikt_algorithm.

(** [run_fastjet_clustering], lines 30-44: the sorted inclusive jets. *)
Definition run_fastjet_clustering (input_particles : Event)
    (strategy : Strategy) (algorithm : JetAlgorithm) (R ptmin : float)
  : list PseudoJet :=
  let recomb_scheme := E_scheme in
  let jet_def := JetDefinition_R algorithm R recomb_scheme strategy in
  let clust_seq := new_ClusterSequence w input_particles jet_def in
  sorted_by_pt w (inclusive_jets w clust_seq ptmin).

(** The body of the loop over events, lines 156-167. *)
Definition process_event (v : vars) (strategy : Strategy)
    (algorithm : JetAlgorithm) (dump_fh : dump_target)
    (trial ievt : Z) (event : Event) : M unit :=
  let inclusive_jets :=
    run_fastjet_clustering event strategy algorithm (R v) (ptmin v) in
  emit (Cluster trial ievt
                (JetDefinition_R algorithm (R v) E_scheme strategy) event) ;;
  if dump v
  then emit (DumpJets dump_fh trial (ievt + 1) inclusive_jets)
  else ret tt.

(** Lines 105-118. *)
Definition get_input_file (c : command_line) : M string :=
  match operands c with
  | [] =>
      emit (Cerr MsgNoInputFile) ;; emit (Cout MsgUsage) ;;
      exit EXIT_FAILURE
  | [f] => ret f
  | _ :: extra =>
      emit (Cerr MsgUnexpectedArgs) ;; emit (Cout (MsgArgs extra)) ;;
      emit (Cout MsgUsage) ;;
      exit EXIT_FAILURE
  end.

(** Lines 141-146. *)
Definition open_dump_file (v : vars) : M dump_target :=
  if dump v then open_dump (dump_file v) else ret to_stdout.

Definition main (c : command_line) : M Z :=
  v <- parse_options (getopt_items c) defaults ;;
  input_file <- get_input_file c ;;
  events <- read_input_events (fs w) input_file (maxevents v) ;;
  let strategy := strategy_of (mystrategy v) in
  let algorithm := select_algorithm (power v) in
  emit (Cout (MsgStrategyAlg (mystrategy v) (power v))) ;;
  dump_fh <- open_dump_file v ;;
  benchmark (us_elapsed w) events
            (process_event v strategy algorithm dump_fh)
            0 (trials v) ;;
  ret 0.

End Program.

End Inclusive.

(** ** The debug dump of a cluster sequence (fastjet-finder.cc) *)

Module FinderDebug.

(** [fastjet::ClusterSequence::history_element]: the fields that are
    printed.  The parents and the child are [int] indices; fastjet uses
    negative parents for "no parent" and "beam". *)
Record history_element : Type := mkHistoryElement {
  parent1 : Z;
  parent2 : Z;
  child : Z;
  dij : float;
  max_dij_so_far : float
}.

(** One line written to [std::cout]. *)
Inductive line : Type :=
| JetLine (ijets : Z) (px py pz E : float)
| HistoryLine (ihistory parent1 parent2 child : Z)
              (dij max_dij_so_far : float).

(** The [int] that an addition of [int]s leaves when its exact result is
    [z]: [z] itself where it is representable and, beyond (where the
    language leaves the result undefined), the 32-bit two's-complement
    wrap-around of the compiled code. *)
Definition int_of (z : Z) : Z := (z + 2 ^ 31) mod 2 ^ 32 - 2 ^ 31.

(** [for (auto jet: jets) { ...; ijets++; }], lines 61-64; [ijets] is an
    [int]. *)
Fixpoint dump_jets (jets : list PseudoJet) (ijets : Z) : list line :=
  match jets with
  | [] => []
  | jet :: rest =>
      JetLine ijets (px jet) (py jet) (pz jet) (E jet)
      :: dump_jets rest (int_of (ijets + 1))
  end.

(** [for (auto he: history) { ...; ihistory++; }], lines 68-73; the
    counter and the three sums are [int]s. *)
Fixpoint dump_history (history : list history_element) (ihistory : Z)
  : list line :=
  match history with
  | [] => []
  | he :: rest =>
      HistoryLine ihistory (int_of (parent1 he + 1))
                  (int_of (parent2 he + 1)) (int_of (child he + 1))
                  (dij he) (max_dij_so_far he)
      :: dump_history rest (int_of (ihistory + 1))
  end.

(** [dump_clusterseq], lines 55-74, on what [clust_seq.jets()] and
    [clust_seq.history()] return. *)
Definition dump_clusterseq (jets : list PseudoJet)
    (history : list history_element) : list line :=
  let ijets := 1 in
  let ihistory := 1 in
  dump_jets jets ijets ++ dump_history history ihistory.

End FinderDebug.

(** ** The event generators (genevts-AA.cc, genevts-ee.cc) *)

Module Genevts.

(** [Pythia8::Particle]: the two tests the programs apply. *)
Record Particle : Type := mkParticle {
  isFinal : bool;
  isCharged : bool
}.

(** The generator, from outside: [next] returns whether an event was
    generated and the generator afterwards; [event] is [pythia.event],
    entry 0 included. *)
Record Generator : Type := mkGenerator {
  Pythia : Type;
  new_Pythia : Pythia;
  readString : Pythia -> string -> Pythia;
  init : Pythia -> Pythia;
  next : Pythia -> bool * Pythia;
  event : Pythia -> list Particle
}.

Section Program.

Variable g : Generator.

(** What a program does, in order: the calls of [pythia.next()] with what
    they return, the values put in the histogram, the events written,
    [pythia.stat()] with the generator it is called on, and the printing
    of the histogram. *)
Inductive output : Type :=
| Next (ok : bool)
| Fill (nCharged : Z)
| WriteNextEvent (file : string) (ev : list Particle)
| Stat (pythia : Pythia g)
| PrintHist.

(** [for (int i = 0; i < pythia.event.size(); ++i) if (...) ++nCharged;] *)
Fixpoint count_charged (ev : list Particle) (nCharged : Z) : Z :=
  match ev with
  | [] => nCharged
  | p :: rest =>
      count_charged rest
        (if isFinal p && isCharged p then nCharged + 1 else nCharged)
  end.

(** The event loop, with the number of iterations left: a failed
    [pythia.next()] goes on to the next iteration. *)
Fixpoint event_loop (file : string) (left : nat) (pythia : Pythia g)
  : Pythia g * list output :=
  match left with
  | O => (pythia, [])
  | S left' =>
      let (ok, pythia') := next g pythia in
      if negb ok then
        let (pythia'', out) := event_loop file left' pythia' in
        (pythia'', Next ok :: out)
      else
        let nCharged := count_charged (event g pythia') 0 in
        let (pythia'', out) := event_loop file left' pythia' in
        (pythia'', Next ok :: Fill nCharged
                   :: WriteNextEvent file (event g pythia') :: out)
  end.

(** The shape of both programs: settings, [init], 100 iterations,
    statistics, histogram, [return 0]. *)
Definition generate (file : string) (settings : list string)
  : Z * list output :=
  let pythia := fold_left (readString g) settings (new_Pythia g) in
  let pythia := init g pythia in
  let (pythia, out) := event_loop file 100 pythia in
  (0, out ++ [Stat pythia; PrintHist]).

End Program.

Arguments Next {g} ok.
Arguments Fill {g} nCharged.
Arguments WriteNextEvent {g} file ev.
Arguments Stat {g} pythia.
Arguments PrintHist {g}.

End Genevts.

Module GenevtsAA.

Definition settings : list string :=
  ["Beams:idA = 1000791970"; "Beams:idB = 1000791970";
   "Beams:eCM = 2760.0"; "Beams:frameType = 1";
   "HeavyIon:SigFitErr = 0.02,0.02,0.1,0.05,0.05,0.0,0.1,0.0";
   "HeavyIon:SigFitDefPar = 17.24,2.15,0.33,0.0,0.0,0.0,0.0,0.0";
   "HeavyIon:SigFitNGen = 20"]%string.

Definition main (g : Genevts.Generator) : Z * list (Genevts.output g) :=
  Genevts.generate g "events-AuAu.hepmc3" settings.

End GenevtsAA.

Module GenevtsEe.

Definition settings : list string :=
  ["PDF:lepton = off"; "WeakSingleBoson:ffbar2gmZ = on";
   "23:onMode = off"; "23:onIfAny = 1 2 3 4 5";
   "Beams:idA =  11"; "Beams:idB = -11"; "Beams:eCM = 120."]%string.

Definition main (g : Genevts.Generator) : Z * list (Genevts.output g) :=
  Genevts.generate g "events-ee-120.hepmc3" settings.

End GenevtsEe.

(** ** Sample worlds and command lines *)

Module Sample.

(** A toy engine: the cluster sequence of an event is the event itself,
    every selector returns all of it and sorting leaves it as it is. *)
Definition particle (x : float) : GenParticle :=
  mkGenParticle 1 (mkPseudoJet x 0 0 x).

Definition unstable (x : float) : GenParticle :=
  mkGenParticle 2 (mkPseudoJet x 0 0 x).

Definition world (file : list (option GenEvent)) (clock : Z -> float) : World :=
  mkWorld Event (fun input_particles _ => input_particles)
          (fun cs _ => cs) (fun cs _ => cs) (fun cs _ => cs)
          (fun jets => jets)
          (fun fname => if String.eqb fname "events.hepmc3"
                        then mkReader false file
                        else mkReader true [])
          clock.

Definition one_event : list (option GenEvent) :=
  [Some (mkGenEvent [particle 1; unstable 2; particle 3])].

Definition two_events : list (option GenEvent) :=
  [Some (mkGenEvent [particle 1; particle 2]);
   Some (mkGenEvent [particle 3])].

(** A clock that measures 100 us in trial 0, 104 us in trial 1, ... *)
Definition clock (trial : Z) : float := Double.of_int (100 + 4 * trial).

(** [fastjet-finder --ptmin 0.5 events.hepmc3] *)
Definition finder_ptmin : Finder.options :=
  Finder.mkOptions 0 (-1) 0 1 "Best" (-1) "" default_R
                   (Some 0.5%float) None None None false ["events.hepmc3"%string].

(** [fastjet-finder --trials 3 --njets 2 --dump - events.hepmc3] *)
Definition finder_njets : Finder.options :=
  Finder.mkOptions 0 (-1) 0 3 "Best" (-1) "" default_R
                   None None (Some 2) (Some "-"%string) true
                   ["events.hepmc3"%string].

(** [fastjet-inclusive -n 2 -d - events.hepmc3] *)
Definition inclusive_dump : Inclusive.command_line :=
  Inclusive.mkCommandLine [Inclusive.opt_n 2; Inclusive.opt_d "-"]
                          ["events.hepmc3"%string].

(** The world of a file of two events. *)
Definition two_event_world : World := world two_events clock.

(** The world of a file of one event. *)
Definition one_event_world : World := world one_event clock.

(** The world of a file without events. *)
Definition empty_world : World := world [] clock.






(** [fastjet-finder --ptmin 0.5 --trials 0 events.hepmc3] *)
Definition finder_no_trial : Finder.options :=
  Finder.mkOptions 0 (-1) 0 0 "Best" (-1) "" default_R
                   (Some 0.5%float) None None None false
                   ["events.hepmc3"%string].

(** [fastjet-finder --ptmin 0.5], without a file name *)
Definition finder_no_file : Finder.options :=
  Finder.mkOptions 0 (-1) 0 1 "Best" (-1) "" default_R
                   (Some 0.5%float) None None None false [].

(** [fastjet-inclusive -n 1 -p 2 events.hepmc3] *)
Definition inclusive_power_2 : Inclusive.command_line :=
  Inclusive.mkCommandLine [Inclusive.opt_n 1; Inclusive.opt_p 2]
                          ["events.hepmc3"%string].


End Sample.

(** ** Vocabulary of the properties *)

(** The events the source decodes: those before the first failure. *)
Fixpoint decodable (p : list (option GenEvent)) : list GenEvent :=
  match p with
  | Some evt :: rest => evt :: decodable rest
  | _ => []
  end.

Definition decoded (r : ReaderAscii) : list GenEvent :=
  if failed r then [] else decodable (pending r).

(** The first [maxevents] elements, all of them for a negative bound. *)
Definition bounded {A : Type} (maxevents : Z) (l : list A) : list A :=
  if 0 <=? maxevents then firstn (Z.to_nat maxevents) l else l.

Definition to_PseudoJet (p : GenParticle) : PseudoJet :=
  mkPseudoJet (px (momentum p)) (py (momentum p))
              (pz (momentum p)) (E (momentum p)).

(** The particles of status 1 of an event, in order. *)
Definition final_state (evt : GenEvent) : Event :=
  map to_PseudoJet (filter (fun p => status p =? 1) (particles evt)).

(** Every particle of an event, in order. *)
Definition all_particles (evt : GenEvent) : Event :=
  map to_PseudoJet (particles evt).

(** The indices [start], [start + 1], ... ([len] of them). *)
Fixpoint iota (start : Z) (len : nat) : list Z :=
  match len with
  | O => []
  | S len' => start :: iota (start + 1) len'
  end.

(** The indices a loop [for (i = start; i < stop; ++i)] goes through. *)
Definition range (start stop : Z) : list Z :=
  iota start (Z.to_nat (stop - start)).

(** The events a trace clusters during trial [trial], with their indices,
    in order. *)
Definition clustered (trial : Z) (tr : trace) : list (Z * Event) :=
  flat_map (fun e =>
              match e with
              | Cluster t ievt _ input_particles =>
                  if t =? trial then [(ievt, input_particles)] else []
              | _ => []
              end) tr.

(** The dump records a trace writes, with their trial. *)
Definition dumps (tr : trace) : list (Z * Z) :=
  flat_map (fun e =>
              match e with
              | DumpJets _ t ievt1 _ => [(t, ievt1)]
              | DumpClusterSeq t ievt => [(t, ievt + 1)]
              | _ => []
              end) tr.

(** How many [read_event] calls a trace holds. *)
Definition reads (tr : trace) : nat :=
  List.length (filter (fun e => match e with ReadEvent => true | _ => false end)
                      tr).

(** Whether a trace touches the input source. *)
Definition touches_input (tr : trace) : bool :=
  existsb (fun e => match e with
                    | OpenReader _ | ReadEvent => true
                    | _ => false
                    end) tr.

(** The statistics as the specification words them, over the per-trial
    elapsed times [stats]. *)
Module Spec.

Definition sum (xs : list float) : float := fold_left PrimFloat.add xs 0%float.

Definition mean (stats : list float) (trials : Z) (eventCount : nat) : float :=
  (sum stats / Double.of_int trials / Double.of_size eventCount)%float.

(** [E[x]] and [E[x^2]] over the raw per-trial totals. *)
Definition E1 (stats : list float) (trials : Z) : float :=
  (sum stats / Double.of_int trials)%float.

Definition E2 (stats : list float) (trials : Z) : float :=
  (sum (map (fun x => x * x) stats) / Double.of_int trials)%float.



End Spec.

(** *** What the loops do and compute *)

Section LoopVocabulary.

Variable us_elapsed : Z -> float.
Variable events : list Event.
Variable body : Z -> Z -> Event -> M unit.
Variable first_event : Z.

(** What the body does for the event of index [ievt]. *)
Definition event_trace (trial ievt : Z) : trace :=
  snd (body trial ievt (nth (Z.to_nat ievt) events [])).

(** What one trial does. *)
Definition trial_trace (trial : Z) : trace :=
  Cout (MsgTrial trial)
  :: flat_map (event_trace trial)
              (range first_event (Z.of_nat (List.length events)))
  ++ [Cout (MsgElapsed (us_elapsed trial))].

(** The accumulators after one more trial. *)
Definition record_trial (acc : timing) (trial : Z) : timing :=
  let us := us_elapsed trial in
  mkTiming (time_total acc + us) (time_total2 acc + us * us)
           (if (us <? time_lowest acc)%float then us else time_lowest acc).

(** The per-trial elapsed times of a run of [trials] trials. *)
Definition trial_stats (trials : Z) : list float :=
  map us_elapsed (range 0 trials).

End LoopVocabulary.

(** *** The stages of a finder run, as functions of the command line *)

Module FinderRun.

Import Finder.

(** The file name the finder reads. *)
Definition input_file (o : options) : string :=
  match non_option_args o with
  | [f] => f
  | _ => ""%string
  end.

(** The names [--algorithm] accepts; the empty name is the default of the
    option. *)
Definition known_algorithm (alg : string) : bool :=
  String.eqb alg "" || String.eqb alg "AntiKt" || String.eqb alg "CA"
  || String.eqb alg "Kt" || String.eqb alg "GenKt"
  || String.eqb alg "Durham" || String.eqb alg "EEKt".

(** The command lines that pass every check of the finder. *)
Definition accepted (o : options) : bool :=
  negb (help_count o =? 1) && (selection_count o =? 1)
  && known_algorithm (alg o).

(** The event store of the run. *)
Definition events (w : World) (o : options) : list Event :=
  map final_state
      (bounded (Finder.maxevents o) (decoded (fs w (input_file o)))).

(** The algorithm and power in force. *)
Definition resolved (o : options) : JetAlgorithm * float :=
  match fst (select_algorithm (alg o) (power o)) with
  | Val ap => ap
  | _ => (antikt_algorithm, power o)
  end.

Definition dump_fh (o : options) : dump_target :=
  match dump_option o with
  | Some path => if String.eqb path "-" then to_stdout else to_file path
  | None => to_stdout
  end.

(** The body of the event loop as [main] instantiates it. *)
Definition body (w : World) (o : options) : Z -> Z -> Event -> M unit :=
  process_event w o (strategy_of (Finder.mystrategy o))
                (fst (resolved o)) (snd (resolved o)) (dump_fh o).

(** The trials and the statistics as [main] runs them. *)
Definition timed (w : World) (o : options) : M summary :=
  benchmark (us_elapsed w) (events w o) (body w o)
            (size_t_of_int (skip_events o)) (Finder.trials o).

(** What [main] does before the first trial. *)
Definition setup (w : World) (o : options) : trace :=
  snd (get_input_file o)
  ++ snd (read_input_events (fs w) (input_file o) (Finder.maxevents o))
  ++ [Cout (MsgStrategy (Finder.mystrategy o) (snd (resolved o))
                        (fst (resolved o)))]
  ++ snd (open_dump_file o).

End FinderRun.

(** *** The stages of an inclusive run *)

Module InclusiveRun.

Import Inclusive.

(** The variables after option parsing. *)
Definition parsed (c : command_line) : vars :=
  match fst (parse_options (getopt_items c) defaults) with
  | Val v => v
  | _ => defaults
  end.

(** The first option that stops the parsing, if any: [-h], an unknown
    option or a conversion that throws. *)
Fixpoint first_stop (items : list getopt_item) : option getopt_item :=
  match items with
  | [] => None
  | opt_throws :: _ => Some opt_throws
  | opt_h :: _ => Some opt_h
  | opt_other :: _ => Some opt_other
  | _ :: rest => first_stop rest
  end.

(** The command lines that pass every check of the inclusive harness. *)
Definition accepted (c : command_line) : bool :=
  match fst (parse_options (getopt_items c) defaults), operands c with
  | Val _, [_] => true
  | _, _ => false
  end.

Definition input_file (c : command_line) : string :=
  match operands c with
  | f :: _ => f
  | [] => ""%string
  end.

Definition events (w : World) (c : command_line) : list Event :=
  map final_state
      (bounded (Inclusive.maxevents (parsed c))
               (decoded (fs w (input_file c)))).

Definition dump_fh (c : command_line) : dump_target :=
  if dump (parsed c)
  then if String.eqb (dump_file (parsed c)) "-"
       then to_stdout else to_file (dump_file (parsed c))
  else to_stdout.

Definition body (w : World) (c : command_line) : Z -> Z -> Event -> M unit :=
  process_event w (parsed c) (strategy_of (Inclusive.mystrategy (parsed c)))
                (select_algorithm (Inclusive.power (parsed c))) (dump_fh c).

Definition timed (w : World) (c : command_line) : M summary :=
  benchmark (us_elapsed w) (events w c) (body w c)
            0 (Inclusive.trials (parsed c)).

(** What [main] does before the first trial. *)
Definition setup (w : World) (c : command_line) : trace :=
  snd (parse_options (getopt_items c) defaults)
  ++ snd (read_input_events (fs w) (input_file c)
                            (Inclusive.maxevents (parsed c)))
  ++ [Cout (MsgStrategyAlg (Inclusive.mystrategy (parsed c))
                           (Inclusive.power (parsed c)))]
  ++ snd (open_dump_file (parsed c)).

End InclusiveRun.

(** *** A run of either program *)

Inductive invocation : Type :=
| finder (o : Finder.options)
| inclusive (c : Inclusive.command_line).

Module Run.

Definition main (w : World) (i : invocation) : M Z :=
  match i with
  | finder o => Finder.main w o
  | inclusive c => Inclusive.main w c
  end.

Definition accepted (i : invocation) : bool :=
  match i with
  | finder o => FinderRun.accepted o
  | inclusive c => InclusiveRun.accepted c
  end.

Definition trials (i : invocation) : Z :=
  match i with
  | finder o => Finder.trials o
  | inclusive c => Inclusive.trials (InclusiveRun.parsed c)
  end.

Definition events (w : World) (i : invocation) : list Event :=
  match i with
  | finder o => FinderRun.events w o
  | inclusive c => InclusiveRun.events w c
  end.

(** The index of the first event a trial clusters. *)
Definition first_event (i : invocation) : Z :=
  match i with
  | finder o => size_t_of_int (Finder.skip_events o)
  | inclusive _ => 0
  end.

Definition body (w : World) (i : invocation) : Z -> Z -> Event -> M unit :=
  match i with
  | finder o => FinderRun.body w o
  | inclusive c => InclusiveRun.body w c
  end.

Definition setup (w : World) (i : invocation) : trace :=
  match i with
  | finder o => FinderRun.setup w o
  | inclusive c => InclusiveRun.setup w c
  end.

(** The elapsed times the trials of the run record. *)
Definition stats (w : World) (i : invocation) : list float :=
  trial_stats (us_elapsed w) (trials i).

(** What the trials do, one after the other. *)
Definition trials_trace (w : World) (i : invocation) : trace :=
  flat_map (trial_trace (us_elapsed w) (events w i) (body w i) (first_event i))
           (range 0 (trials i)).

(** The accumulators after the last trial, and the summary. *)
Definition totals (w : World) (i : invocation) : timing :=
  fold_left (record_trial (us_elapsed w)) (range 0 (trials i)) initial_timing.

Definition result (w : World) (i : invocation) : summary :=
  summarize (events w i) (trials i) (totals w i).

End Run.

(** The effects of the engine and of the dump: clustering an event and
    writing a dump record. *)
Definition engine_effect (e : effect) : bool :=
  match e with
  | Cluster _ _ _ _ | DumpJets _ _ _ _ | DumpClusterSeq _ _ => true
  | _ => false
  end.

(** The events of a store from index [first] on, with their indices. *)
Definition indexed_from (first : Z) (events : list Event) : list (Z * Event) :=
  map (fun i => (i, nth (Z.to_nat i) events []))
      (range first (Z.of_nat (List.length events))).

(** Every dump record of a trace was written in trial 0. *)
Definition dumps_in_trial_0 (tr : trace) : Prop :=
  Forall (fun d => fst d = 0) (dumps tr).

(** The algorithm of a jet definition, and the algorithms a trace
    clusters with, in order. *)
Definition algorithm_of (jd : JetDefinition) : JetAlgorithm :=
  match jd with
  | JetDefinition_R_p a _ _ _ _ => a
  | JetDefinition_plain a _ _ => a
  | JetDefinition_R a _ _ _ => a
  end.

Definition algorithms_used (tr : trace) : list JetAlgorithm :=
  flat_map (fun e =>
              match e with
              | Cluster _ _ jd _ => [algorithm_of jd]
              | _ => []
              end) tr.

(** A trace without engine or dump effects. *)
Definition quiet (tr : trace) : Prop :=
  Forall (fun e => engine_effect e = false) tr.

(** The elapsed times a trace prints. *)
Definition elapsed_times (tr : trace) : list float :=
  flat_map (fun e => match e with Cout (MsgElapsed us) => [us] | _ => [] end) tr.


(** Neither a number nor finite. *)
Definition not_finite (x : float) : bool := Double.is_nan x || Double.is_inf x.

(** *** More readings of a trace *)

(** What a trace holds of one kind, in order. *)
Definition collect {A : Type} (g : effect -> list A) (tr : trace) : list A :=
  flat_map g tr.

(** The jet definitions a trace clusters with. *)
Definition jet_definitions (tr : trace) : list JetDefinition :=
  collect (fun e => match e with Cluster _ _ jd _ => [jd] | _ => [] end) tr.

(** The jet records a trace dumps: trial, 1-based event index, jets. *)
Definition jet_dumps (tr : trace) : list (Z * Z * list PseudoJet) :=
  collect (fun e => match e with
                    | DumpJets _ t ievt1 jets => [(t, ievt1, jets)]
                    | _ => []
                    end) tr.

(** The file names a trace opens a reader on. *)
Definition opened (tr : trace) : list string :=
  collect (fun e => match e with OpenReader f => [f] | _ => [] end) tr.

(** The dump files a trace opens for writing. *)
Definition fopens (tr : trace) : list string :=
  collect (fun e => match e with Fopen path => [path] | _ => [] end) tr.




(** The strategy of a jet definition. *)
Definition strategy_in (jd : JetDefinition) : Strategy :=
  match jd with
  | JetDefinition_R_p _ _ _ _ s => s
  | JetDefinition_plain _ _ s => s
  | JetDefinition_R _ _ _ s => s
  end.

(** The effects of the setup of an accepted run. *)
Definition setup_effect (e : effect) : bool :=
  match e with
  | Cerr _ | OpenReader _ | ReadEvent | Fopen _ => true
  | Cout (MsgRead _ _) | Cout (MsgStrategy _ _ _)
  | Cout (MsgStrategyAlg _ _) => true
  | _ => false
  end.

(** The effects of the body of the event loops. *)
Definition body_effect (e : effect) : bool :=
  match e with
  | Cluster _ _ _ _ | DumpJets _ _ _ _ | DumpClusterSeq _ _ => true
  | Cout (MsgDijmax _) => true
  | _ => false
  end.

(** Output on the two streams. *)
Definition print_effect (e : effect) : bool :=
  match e with
  | Cout _ | Cerr _ => true
  | _ => false
  end.

(** The effects that come before the dump file is opened. *)
Definition before_dump (e : effect) : bool :=
  match e with
  | Cluster _ _ _ _ | DumpJets _ _ _ _ | DumpClusterSeq _ _ | Fopen _ => false
  | _ => true
  end.

(** The jets the finder selects from a cluster sequence, lines 195-203. *)
Definition finder_final_jets (w : World) (o : Finder.options)
    (cluster_sequence : ClusterSequence w) : list PseudoJet :=
  match Finder.ptmin_option o, Finder.dijmax_option o, Finder.njets_option o with
  | Some ptmin, _, _ => sorted_by_pt w (inclusive_jets w cluster_sequence ptmin)
  | None, Some dijmax, _ =>
      sorted_by_pt w (exclusive_jets_dcut w cluster_sequence dijmax)
  | None, None, Some njets =>
      sorted_by_pt w (exclusive_jets_njets w cluster_sequence njets)
  | None, None, None => []
  end.

(** The jet definition of a run. *)
Definition run_jet_definition (i : invocation) : JetDefinition :=
  match i with
  | finder o =>
      Finder.jet_definition (strategy_of (Finder.mystrategy o))
                            (fst (FinderRun.resolved o)) (Finder.R o)
                            (snd (FinderRun.resolved o))
  | inclusive c =>
      JetDefinition_R
        (Inclusive.select_algorithm (Inclusive.power (InclusiveRun.parsed c)))
        (Inclusive.R (InclusiveRun.parsed c)) E_scheme
        (strategy_of (Inclusive.mystrategy (InclusiveRun.parsed c)))
  end.

(** The dump file an accepted run opens, if any. *)
Definition run_dump_path (i : invocation) : list string :=
  match i with
  | finder o =>
      match Finder.dump_option o with
      | Some path => if String.eqb path "-" then [] else [path]
      | None => []
      end
  | inclusive c =>
      if Inclusive.dump (InclusiveRun.parsed c)
      then if String.eqb (Inclusive.dump_file (InclusiveRun.parsed c)) "-"
           then [] else [Inclusive.dump_file (InclusiveRun.parsed c)]
      else []
  end.

(** A finder command line with one option changed. *)
Definition with_strategy (o : Finder.options) (s : string) : Finder.options :=
  Finder.mkOptions
    (Finder.help_count o) (Finder.maxevents o) (Finder.skip_events o)
    (Finder.trials o) s (Finder.power o) (Finder.alg o) (Finder.R o)
    (Finder.ptmin_option o) (Finder.dijmax_option o) (Finder.njets_option o)
    (Finder.dump_option o) (Finder.debug_clusterseq_option o)
    (Finder.non_option_args o).

Definition with_power (o : Finder.options) (p : float) : Finder.options :=
  Finder.mkOptions
    (Finder.help_count o) (Finder.maxevents o) (Finder.skip_events o)
    (Finder.trials o) (Finder.mystrategy o) p (Finder.alg o) (Finder.R o)
    (Finder.ptmin_option o) (Finder.dijmax_option o) (Finder.njets_option o)
    (Finder.dump_option o) (Finder.debug_clusterseq_option o)
    (Finder.non_option_args o).

Definition with_R (o : Finder.options) (r : float) : Finder.options :=
  Finder.mkOptions
    (Finder.help_count o) (Finder.maxevents o) (Finder.skip_events o)
    (Finder.trials o) (Finder.mystrategy o) (Finder.power o) (Finder.alg o)
    r
    (Finder.ptmin_option o) (Finder.dijmax_option o) (Finder.njets_option o)
    (Finder.dump_option o) (Finder.debug_clusterseq_option o)
    (Finder.non_option_args o).

Definition with_help_count (o : Finder.options) (n : Z) : Finder.options :=
  Finder.mkOptions
    n (Finder.maxevents o) (Finder.skip_events o)
    (Finder.trials o) (Finder.mystrategy o) (Finder.power o) (Finder.alg o)
    (Finder.R o)
    (Finder.ptmin_option o) (Finder.dijmax_option o) (Finder.njets_option o)
    (Finder.dump_option o) (Finder.debug_clusterseq_option o)
    (Finder.non_option_args o).

Definition with_debug_clusterseq (o : Finder.options) (b : bool)
  : Finder.options :=
  Finder.mkOptions
    (Finder.help_count o) (Finder.maxevents o) (Finder.skip_events o)
    (Finder.trials o) (Finder.mystrategy o) (Finder.power o) (Finder.alg o)
    (Finder.R o)
    (Finder.ptmin_option o) (Finder.dijmax_option o) (Finder.njets_option o)
    (Finder.dump_option o) b (Finder.non_option_args o).

(** The value that [-m] was last given in a list of options, or [start]
    where it was not; the same for [-n]. *)
Definition given_maxevents (items : list Inclusive.getopt_item) (start : Z)
  : Z :=
  last (flat_map (fun i => match i with
                           | Inclusive.opt_m x => [x]
                           | _ => []
                           end) items) start.

Definition given_trials (items : list Inclusive.getopt_item) (start : Z)
  : Z :=
  last (flat_map (fun i => match i with
                           | Inclusive.opt_n x => [x]
                           | _ => []
                           end) items) start.

(** Two [getopt] options that assign the same variables. *)
Definition same_option (a b : Inclusive.getopt_item) : bool :=
  match a, b with
  | Inclusive.opt_m _, Inclusive.opt_m _
  | Inclusive.opt_n _, Inclusive.opt_n _
  | Inclusive.opt_s _, Inclusive.opt_s _
  | Inclusive.opt_p _, Inclusive.opt_p _
  | Inclusive.opt_R _, Inclusive.opt_R _
  | Inclusive.opt_P _, Inclusive.opt_P _
  | Inclusive.opt_d _, Inclusive.opt_d _ => true
  | _, _ => false
  end.

(** The results of [n] successive calls of [pythia.next()]. *)
Fixpoint next_calls (g : Genevts.Generator) (pythia : Genevts.Pythia g)
    (n : nat) : list (bool * Genevts.Pythia g) :=
  match n with
  | O => []
  | S n' =>
      let r := Genevts.next g pythia in
      r :: next_calls g (snd r) n'
  end.

(** The generator when the event loop starts. *)
Definition initialized (g : Genevts.Generator) (settings : list string)
  : Genevts.Pythia g :=
  Genevts.init g (fold_left (Genevts.readString g) settings
                            (Genevts.new_Pythia g)).

(** The events that the calls generated, in order. *)
Definition generated (g : Genevts.Generator)
    (calls : list (bool * Genevts.Pythia g)) : list (list Genevts.Particle) :=
  map (fun r => Genevts.event g (snd r)) (filter fst calls).

(** The calls that failed. *)
Definition failures {A : Type} (calls : list (bool * A)) : nat :=
  List.length (filter (fun r => negb (fst r)) calls).

(** The generator after the calls: the one the last call left, or
    [pythia] where there was no call. *)
Definition generator_after {g : Genevts.Generator}
    (calls : list (bool * Genevts.Pythia g)) (pythia : Genevts.Pythia g)
  : Genevts.Pythia g :=
  last (map snd calls) pythia.

(** The events written to a file and the values put in the histogram. *)
Definition written {g : Genevts.Generator} (file : string)
    (out : list (Genevts.output g)) : list (list Genevts.Particle) :=
  flat_map (fun o => match o with
                     | Genevts.WriteNextEvent f ev =>
                         if String.eqb f file then [ev] else []
                     | _ => []
                     end) out.

Definition filled {g : Genevts.Generator} (out : list (Genevts.output g))
  : list Z :=
  flat_map (fun o => match o with Genevts.Fill n => [n] | _ => [] end) out.

(** What the calls of [pythia.next()] returned, and the generators that
    [pythia.stat()] was called on. *)
Definition nexts {g : Genevts.Generator} (out : list (Genevts.output g))
  : list bool :=
  flat_map (fun o => match o with Genevts.Next ok => [ok] | _ => [] end) out.

Definition stat_calls {g : Genevts.Generator} (out : list (Genevts.output g))
  : list (Genevts.Pythia g) :=
  flat_map (fun o => match o with Genevts.Stat p => [p] | _ => [] end) out.

(** The final charged particles of an event. *)
Definition final_charged (ev : list Genevts.Particle)
  : list Genevts.Particle :=
  filter (fun p => Genevts.isFinal p && Genevts.isCharged p) ev.

(** What one call of [pythia.next()] leads to in the event loop. *)
Definition after_call (g : Genevts.Generator) (file : string)
    (r : bool * Genevts.Pythia g) : list (Genevts.output g) :=
  Genevts.Next (fst r)
  :: (if fst r
      then [Genevts.Fill
              (Genevts.count_charged (Genevts.event g (snd r)) 0);
            Genevts.WriteNextEvent file (Genevts.event g (snd r))]
      else []).

(** The values an [int] holds. *)
Definition is_int (z : Z) : Prop := - 2 ^ 31 <= z < 2 ^ 31.


(** * Properties *)

(** ** Doubles *)

(** *** Rounding a positive integer never gives zero *)

Section RoundingPositive.








End RoundingPositive.




(** Dividing by [0.0] never gives a finite number. *)
Lemma div_by_zero (x : float) :
  Double.is_nan (x / 0)%float || Double.is_inf (x / 0)%float = true.
Proof.
  unfold Double.is_nan, Double.is_inf. rewrite div_spec.
  destruct (Prim2SF x) as [s | s | | s m e]; reflexivity.
Qed.

(** [x == y] for a finite non-zero [y] holds for [y] only. *)
Lemma eqb_finite (x y : float) (s : bool) (m : positive) (e : Z) :
  Prim2SF y = S754_finite s m e -> (x =? y)%float = true -> x = y.
Proof.
  intros Hy H. rewrite eqb_spec, Hy in H. apply Prim2SF_inj. rewrite Hy.
  unfold SFeqb, SFcompare in H.
  destruct (Prim2SF x) as [sx | sx | | sx mx ex];
    try discriminate;
    try (destruct sx; discriminate);
    try (destruct s; discriminate).
  destruct sx, s; try discriminate;
    (destruct (ex ?= e) eqn:Ee; try discriminate;
     apply Z.compare_eq in Ee; subst ex;
     destruct (Pos.compare_cont Eq mx m) eqn:Em; try discriminate;
     apply Pos.compare_eq in Em; subst mx; reflexivity).
Qed.

(** [x == 0.0] holds for the two zeros only. *)
Lemma eqb_zero (x : float) :
  (x =? 0)%float = true -> x = 0%float \/ x = neg_zero.
Proof.
  intros H. rewrite eqb_spec in H.
  change (Prim2SF 0) with (S754_zero false) in H.
  unfold SFeqb, SFcompare in H.
  destruct (Prim2SF x) as [sx | sx | | sx mx ex] eqn:Ex;
    try discriminate; try (destruct sx; discriminate).
  destruct sx; [right | left]; apply Prim2SF_inj; rewrite Ex; reflexivity.
Qed.

(** Two doubles with different IEEE views are different. *)
Ltac float_neq H :=
  apply (f_equal Prim2SF) in H; vm_compute in H; discriminate H.

(** Boolean comparisons on [Z] in the hypotheses, as propositions. *)
Ltac zbool :=
  repeat match goal with
         | H : (_ <=? _) = true |- _ => apply Z.leb_le in H
         | H : (_ <=? _) = false |- _ => apply Z.leb_gt in H
         | H : (_ <? _) = true |- _ => apply Z.ltb_lt in H
         | H : (_ <? _) = false |- _ => apply Z.ltb_ge in H
         | H : (_ =? _) = true |- _ => apply Z.eqb_eq in H
         | H : (_ =? _) = false |- _ => apply Z.eqb_neq in H
         | H : (_ && _) = true |- _ => apply andb_prop in H; destruct H
         end.

(** ** Runs *)

Lemma bind_val {A B : Type} (a : A) (t : trace) (f : A -> M B) :
  bind (Val a, t) f = (fst (f a), t ++ snd (f a)).
Proof. unfold bind. destruct (f a); reflexivity. Qed.

Lemma bind_ret_l {A B : Type} (a : A) (f : A -> M B) : bind (ret a) f = f a.
Proof. unfold ret. rewrite bind_val. destruct (f a); reflexivity. Qed.

Lemma bind_emit {B : Type} (e : effect) (k : M B) :
  bind (emit e) (fun _ => k) = (fst k, e :: snd k).
Proof. unfold emit. rewrite bind_val. reflexivity. Qed.

(** ** Loading the event store *)

Lemma collect_particles_spec (ps : list GenParticle) :
  forall acc,
    collect_particles ps acc
    = acc ++ map to_PseudoJet (filter (fun p => status p =? 1) ps).
Proof.
  induction ps as [| p ps IH]; intros acc; simpl.
  - now rewrite app_nil_r.
  - destruct (status p =? 1); rewrite IH; simpl.
    + now rewrite <- app_assoc.
    + reflexivity.
Qed.

Lemma read_loop_spec (maxevents : Z) (p : list (option GenEvent)) :
  forall fuel (f : bool) events_parsed events,
    (List.length p < fuel)%nat ->
    let remaining :=
      if 0 <=? maxevents
      then firstn (Z.to_nat (maxevents - events_parsed)) (decodable p)
      else decodable p in
    let taken := if f then [] else remaining in
    exists k,
      read_loop fuel maxevents (mkReader f p) events_parsed events
      = (Val (events_parsed + Z.of_nat (List.length taken),
              events ++ map final_state taken),
         repeat ReadEvent k)
      /\ (0 <= maxevents -> (k <= Z.to_nat (maxevents - events_parsed))%nat).
Proof.
  induction p as [| o p IH]; intros fuel f events_parsed events Hfuel;
    (destruct fuel as [| fuel]; [simpl in Hfuel; lia |]);
    cbv zeta; simpl read_loop; destruct f; simpl negb; cbv iota.
  - exists 0%nat. simpl. rewrite app_nil_r, Z.add_0_r. split; [reflexivity | lia].
  - exists (if (0 <=? maxevents) && (maxevents <=? events_parsed)
            then 0%nat else 1%nat).
    assert (Hnil : (if 0 <=? maxevents
                    then firstn (Z.to_nat (maxevents - events_parsed))
                                (decodable [])
                    else decodable []) = @nil GenEvent)
      by (destruct (0 <=? maxevents); [apply firstn_nil | reflexivity]).
    rewrite Hnil. simpl List.length. simpl map.
    rewrite app_nil_r, Z.add_0_r.
    destruct (0 <=? maxevents) eqn:Hb; simpl andb.
    + destruct (maxevents <=? events_parsed) eqn:Hm.
      * split; [reflexivity | lia].
      * rewrite bind_emit. split; [reflexivity | zbool; lia].
    + rewrite bind_emit. split; [reflexivity | zbool; lia].
  - exists 0%nat. simpl. rewrite app_nil_r, Z.add_0_r. split; [reflexivity | lia].
  - destruct ((0 <=? maxevents) && (maxevents <=? events_parsed)) eqn:Hstop.
    + exists 0%nat. apply andb_prop in Hstop. destruct Hstop as [Hb Hm].
      rewrite Hb. zbool.
      replace (Z.to_nat (maxevents - events_parsed)) with 0%nat by lia.
      simpl. rewrite app_nil_r, Z.add_0_r. split; [reflexivity | lia].
    + rewrite bind_emit. destruct o as [evt |];
        unfold read_event; cbn [pending failed].
      * destruct (IH fuel false (events_parsed + 1)
                     (events ++ [collect_particles (particles evt) []]))
          as [k [Hk Hle]]; [simpl in Hfuel; lia |].
        cbv zeta in Hk. cbv iota in Hk. rewrite Hk. exists (S k).
        cbn [fst snd decodable]. rewrite collect_particles_spec.
        cbn [app]. rewrite <- app_assoc. cbn [app repeat].
        destruct (0 <=? maxevents) eqn:Hb; simpl andb in Hstop.
        -- zbool.
           replace (Z.to_nat (maxevents - events_parsed))
             with (S (Z.to_nat (maxevents - (events_parsed + 1)))) by lia.
           cbn [firstn List.length map]. split; [| lia].
           rewrite Nat2Z.inj_succ, <- Z.add_1_l, Z.add_assoc. reflexivity.
        -- cbn [List.length map]. split; [| lia].
           rewrite Nat2Z.inj_succ, <- Z.add_1_l, Z.add_assoc. reflexivity.
      * exists 1%nat.
        assert (Hnil : (if 0 <=? maxevents
                        then firstn (Z.to_nat (maxevents - events_parsed))
                                    (decodable (None :: p))
                        else decodable (None :: p)) = @nil GenEvent)
          by (destruct (0 <=? maxevents); [apply firstn_nil | reflexivity]).
        rewrite Hnil. simpl. rewrite app_nil_r, Z.add_0_r.
        split; [reflexivity |].
        intros H0. destruct (0 <=? maxevents) eqn:Hb; [| zbool; lia].
        simpl andb in Hstop. zbool. lia.
Qed.

Lemma reads_repeat (k : nat) (tl : trace) :
  reads (repeat ReadEvent k ++ tl) = (k + reads tl)%nat.
Proof.
  unfold reads. induction k as [| k IH]; simpl; [reflexivity |].
  now rewrite IH.
Qed.

(** What [read_input_events] returns and does, for every source and
    bound. *)
Lemma read_input_events_spec (fs : string -> ReaderAscii) (fname : string)
    (maxevents : Z) :
  let loaded := bounded maxevents (decoded (fs fname)) in
  exists k,
    read_input_events fs fname maxevents
    = (Val (map final_state loaded),
       OpenReader fname
       :: repeat ReadEvent k
       ++ [Cout (MsgRead (Z.of_nat (List.length loaded)) fname)])
    /\ (0 <= maxevents -> (k <= Z.to_nat maxevents)%nat).
Proof.
  cbv zeta. unfold read_input_events, bounded, decoded.
  destruct (fs fname) as [f p]. cbn [pending failed].
  destruct (read_loop_spec maxevents p (S (List.length p)) f 0 [])
    as [k [Hk Hle]]; [lia |].
  cbv zeta in Hk. rewrite Z.sub_0_r in Hk, Hle. cbn [app] in Hk.
  exists k. split; [| exact Hle].
  rewrite bind_emit, Hk, bind_val, bind_emit. cbn [fst snd].
  unfold ret. cbn [fst snd].
  destruct f; destruct (0 <=? maxevents); try rewrite firstn_nil; reflexivity.
Qed.

(** Loading always returns: the reader loop ends on every source. *)
Lemma read_input_events_returns (fs : string -> ReaderAscii) (fname : string)
    (maxevents : Z) :
  exists events tr, read_input_events fs fname maxevents = (Val events, tr).
Proof.
  destruct (read_input_events_spec fs fname maxevents) as [k [H _]].
  eauto.
Qed.

Lemma read_input_events_value
    (fs : string -> ReaderAscii) (fname : string) (maxevents : Z) :
  fst (read_input_events fs fname maxevents)
  = Val (map final_state (bounded maxevents (decoded (fs fname)))).
Proof.
  destruct (read_input_events_spec fs fname maxevents) as [k [H _]].
  now rewrite H.
Qed.

(** C7, as amended.  For every source and bound the loader returns, for
    each event the source decodes (up to the bound), the four-momenta of
    its particles of status 1, in the order of the source: the events are
    not reordered, but the final-state filter is the loader's own. *)
Theorem read_input_events_keeps_final_state
    (fs : string -> ReaderAscii) (fname : string) (maxevents : Z) :
  fst (read_input_events fs fname maxevents)
  = Val (map final_state (bounded maxevents (decoded (fs fname)))).
Proof.
  destruct (read_input_events_spec fs fname maxevents) as [k [H _]].
  now rewrite H.
Qed.

(** C7, as stated, fails: on a file of one event with particles of status
    1, 2 and 1, the loader returns an event of two particles, not the three
    the source decodes. *)
Lemma read_input_events_drops_particles :
  let fs := fs (Sample.world Sample.one_event Sample.clock) in
  fst (read_input_events fs "events.hepmc3" (-1))
  <> Val (map all_particles (bounded (-1) (decoded (fs "events.hepmc3"%string)))).
Proof. vm_compute. discriminate. Qed.

(** C10.  With [maxevents = 0] the loader returns no event and reports
    zero events read without a single [read_event] call; and for every
    bound [n >= 0] it calls [read_event] at most [n] times, the bound being
    tested before each read. *)
Theorem read_input_events_maxevents_0
    (fs : string -> ReaderAscii) (fname : string) :
  read_input_events fs fname 0
  = (Val [], [OpenReader fname; Cout (MsgRead 0 fname)])
  /\ forall n : nat,
      (reads (snd (read_input_events fs fname (Z.of_nat n))) <= n)%nat.
Proof.
  split.
  - unfold read_input_events. rewrite bind_emit.
    simpl read_loop. destruct (failed (fs fname)); reflexivity.
  - intros n.
    destruct (read_input_events_spec fs fname (Z.of_nat n)) as [k [H Hle]].
    rewrite H. cbn [snd]. unfold reads at 1. cbn [filter].
    fold (reads (repeat ReadEvent k
                   ++ [Cout (MsgRead
                               (Z.of_nat
                                  (List.length
                                     (bounded (Z.of_nat n) (decoded (fs fname)))))
                               fname)])).
    rewrite reads_repeat. unfold reads. simpl. lia.
Qed.

(** ** The loops *)

Lemma range_empty (start stop : Z) : stop <= start -> range start stop = [].
Proof. intros H. unfold range. now replace (Z.to_nat (stop - start)) with 0%nat by lia. Qed.

Lemma range_cons (start stop : Z) :
  start < stop -> range start stop = start :: range (start + 1) stop.
Proof.
  intros H. unfold range.
  replace (Z.to_nat (stop - start)) with (S (Z.to_nat (stop - (start + 1)))) by lia.
  reflexivity.
Qed.

Section LoopFacts.

Variable us_elapsed : Z -> float.
Variable events : list Event.
Variable body : Z -> Z -> Event -> M unit.
Variable first_event : Z.
Variable trials : Z.

(** The body of the event loop returns: it neither exits nor loops. *)
Hypothesis body_returns : forall trial ievt event, fst (body trial ievt event) = Val tt.
Hypothesis first_event_nonneg : 0 <= first_event.

Lemma event_loop_spec (trial : Z) :
  forall fuel ievt,
    0 <= ievt ->
    (Z.to_nat (Z.of_nat (List.length events) - ievt) < fuel)%nat ->
    event_loop events body fuel trial ievt
    = (Val tt, flat_map (event_trace events body trial)
                        (range ievt (Z.of_nat (List.length events)))).
Proof.
  induction fuel as [| fuel IH]; intros ievt Hi Hfuel; [lia |].
  cbn [event_loop].
  destruct (ievt <? Z.of_nat (List.length events)) eqn:Hlt; zbool.
  - rewrite range_cons by exact Hlt. cbn [flat_map].
    pose proof (body_returns trial ievt (nth (Z.to_nat ievt) events [])) as Hb.
    unfold event_trace at 1.
    destruct (body trial ievt (nth (Z.to_nat ievt) events [])) as [r t].
    cbn [fst snd] in Hb |- *. subst r.
    rewrite bind_val, IH by lia. reflexivity.
  - rewrite range_empty by lia. reflexivity.
Qed.

Lemma trial_loop_spec :
  forall fuel trial acc,
    (Z.to_nat (trials - trial) < fuel)%nat ->
    trial_loop us_elapsed events body first_event trials fuel trial acc
    = (Val (fold_left (record_trial us_elapsed) (range trial trials) acc),
       flat_map (trial_trace us_elapsed events body first_event) (range trial trials)).
Proof.
  induction fuel as [| fuel IH]; intros trial acc Hfuel; [lia |].
  cbn [trial_loop].
  destruct (trial <? trials) eqn:Hlt; zbool.
  - rewrite range_cons by exact Hlt. cbn [flat_map fold_left].
    rewrite bind_emit, event_loop_spec by (try exact first_event_nonneg; lia).
    rewrite bind_val, bind_emit, IH by lia.
    cbn [fst snd]. unfold trial_trace at 2, record_trial at 2.
    cbn [app]. rewrite <- app_assoc. reflexivity.
  - rewrite range_empty by lia. reflexivity.
Qed.

Lemma benchmark_spec :
  let acc := fold_left (record_trial us_elapsed) (range 0 trials) (initial_timing) in
  benchmark us_elapsed events body first_event trials
  = (Val (summarize events trials acc),
     flat_map (trial_trace us_elapsed events body first_event) (range 0 trials)
     ++ report events trials (summarize events trials acc)).
Proof.
  cbv zeta. unfold benchmark.
  rewrite trial_loop_spec by lia.
  rewrite bind_val. unfold statistics. cbv zeta.
  rewrite !bind_emit. reflexivity.
Qed.



End LoopFacts.

(** ** Traces without engine effects *)

Lemma quiet_app (t1 t2 : trace) : quiet (t1 ++ t2) <-> quiet t1 /\ quiet t2.
Proof. apply Forall_app. Qed.

Lemma clustered_app (trial : Z) (t1 t2 : trace) :
  clustered trial (t1 ++ t2) = clustered trial t1 ++ clustered trial t2.
Proof. apply flat_map_app. Qed.

Lemma dumps_app (t1 t2 : trace) : dumps (t1 ++ t2) = dumps t1 ++ dumps t2.
Proof. apply flat_map_app. Qed.

Lemma quiet_clustered (trial : Z) (tr : trace) :
  quiet tr -> clustered trial tr = [].
Proof.
  induction 1 as [| e tr He _ IH]; [reflexivity |].
  unfold clustered in *. cbn [flat_map]. rewrite IH.
  destruct e; try reflexivity; discriminate.
Qed.

Lemma quiet_dumps (tr : trace) : quiet tr -> dumps tr = [].
Proof.
  induction 1 as [| e tr He _ IH]; [reflexivity |].
  unfold dumps in *. cbn [flat_map]. rewrite IH.
  destruct e; try reflexivity; discriminate.
Qed.

Lemma quiet_cerr (tr : trace) :
  Forall (fun e => exists m, e = Cerr m) tr -> quiet tr.
Proof. apply Forall_impl. now intros e [m ->]. Qed.

Lemma quiet_fopen (tr : trace) :
  Forall (fun e => exists path, e = Fopen path) tr -> quiet tr.
Proof. apply Forall_impl. now intros e [m ->]. Qed.

Lemma quiet_read_input_events (fs : string -> ReaderAscii) (fname : string)
    (maxevents : Z) :
  quiet (snd (read_input_events fs fname maxevents)).
Proof.
  destruct (read_input_events_spec fs fname maxevents) as [k [H _]].
  rewrite H. cbn [snd]. constructor; [reflexivity |].
  apply quiet_app. split.
  - clear H. unfold quiet.
    induction k as [| k IH]; simpl; constructor; [reflexivity | exact IH].
  - repeat constructor.
Qed.

Lemma quiet_report (events : list Event) (trials : Z) (s : summary) :
  quiet (report events trials s).
Proof. repeat constructor. Qed.

(** ** The stages of [main] *)

Lemma bind_exited {A B : Type} (c : Z) (t : trace) (f : A -> M B) :
  bind (Exited c, t) f = (Exited c, t).
Proof. reflexivity. Qed.

Lemma bind_aborted {A B : Type} (t : trace) (f : A -> M B) :
  bind (Aborted, t) f = (Aborted, t).
Proof. reflexivity. Qed.

(** Running a computation that returns, then another. *)
Lemma bind_returns {A B : Type} (m : M A) (a : A) (f : A -> M B) :
  fst m = Val a -> bind m f = (fst (f a), snd m ++ snd (f a)).
Proof. destruct m as [r t]. simpl. intros ->. apply bind_val. Qed.

Module FinderFacts.

Import Finder FinderRun.

Lemma show_help_shown (o : options) :
  help_count o = 1 -> show_help o = (Exited 0, [Cout MsgHelp]).
Proof. intros H. unfold show_help. rewrite H. reflexivity. Qed.

Lemma show_help_skipped (o : options) :
  help_count o <> 1 -> show_help o = (Val tt, []).
Proof.
  intros H. unfold show_help.
  destruct (help_count o =? 1) eqn:E; zbool; [contradiction | reflexivity].
Qed.

Lemma get_input_file_returns (o : options) :
  fst (get_input_file o) = Val (input_file o).
Proof.
  unfold get_input_file, input_file.
  destruct (non_option_args o) as [| f [| g l]]; reflexivity.
Qed.

(** The input-file stage only writes to the error stream. *)
Lemma get_input_file_trace (o : options) :
  Forall (fun e => exists m, e = Cerr m) (snd (get_input_file o)).
Proof.
  unfold get_input_file.
  destruct (non_option_args o) as [| f [| g l]]; simpl;
    repeat constructor; eauto.
Qed.

Lemma check_selection_rejects (o : options) :
  selection_count o <> 1 ->
  check_selection o
  = (Exited 1, [Cerr (MsgSelectionCount (selection_count o))]).
Proof.
  intros H. unfold check_selection. cbv zeta.
  destruct (selection_count o =? 1) eqn:E; zbool; [contradiction | reflexivity].
Qed.

Lemma check_selection_passes (o : options) :
  selection_count o = 1 -> check_selection o = (Val tt, []).
Proof. intros H. unfold check_selection. rewrite H. reflexivity. Qed.

Lemma select_algorithm_known (alg : string) (power : float) :
  known_algorithm alg = true ->
  exists ap, select_algorithm alg power = (Val ap, []).
Proof.
  unfold known_algorithm, select_algorithm. intros H.
  destruct (String.eqb alg "") eqn:E0; simpl negb; cbv iota.
  - destruct (power =? -1)%float; [eexists; reflexivity |].
    destruct (power =? 0)%float; [eexists; reflexivity |].
    destruct (power =? 1)%float; eexists; reflexivity.
  - simpl orb in H.
    destruct (String.eqb alg "AntiKt"); [eexists; reflexivity |].
    destruct (String.eqb alg "CA"); [eexists; reflexivity |].
    destruct (String.eqb alg "Kt"); [eexists; reflexivity |].
    destruct (String.eqb alg "GenKt"); [eexists; reflexivity |].
    destruct (String.eqb alg "Durham"); [eexists; reflexivity |].
    destruct (String.eqb alg "EEKt"); [eexists; reflexivity |].
    discriminate.
Qed.

Lemma select_algorithm_unknown (alg : string) (power : float) :
  known_algorithm alg = false ->
  select_algorithm alg power = (Exited 1, [Cout (MsgUnknownAlgorithm alg)]).
Proof.
  unfold known_algorithm, select_algorithm. intros H.
  repeat (apply orb_false_elim in H; destruct H as [H ?]).
  repeat match goal with E : String.eqb _ _ = false |- _ => rewrite E; clear E end.
  reflexivity.
Qed.

Lemma select_algorithm_resolved (o : options) :
  known_algorithm (alg o) = true ->
  select_algorithm (alg o) (power o) = (Val (resolved o), []).
Proof.
  intros H. unfold resolved.
  destruct (select_algorithm_known _ (power o) H) as [ap Hap].
  now rewrite Hap.
Qed.

Lemma finder_open_dump_file_returns (o : options) :
  fst (open_dump_file o) = Val (dump_fh o).
Proof.
  unfold open_dump_file, dump_fh, open_dump.
  destruct (dump_option o) as [path |]; [| reflexivity].
  destruct (String.eqb path "-"); reflexivity.
Qed.

Lemma open_dump_file_trace (o : options) :
  Forall (fun e => exists path, e = Fopen path) (snd (open_dump_file o)).
Proof.
  unfold open_dump_file, open_dump.
  destruct (dump_option o) as [path |]; [| constructor].
  destruct (String.eqb path "-"); simpl; repeat constructor; eauto.
Qed.

Lemma finder_process_event_returns (w : World) (o : options) (strategy : Strategy)
    (algorithm : JetAlgorithm) (power : float) (fh : dump_target)
    (trial ievt : Z) (event : Event) :
  fst (process_event w o strategy algorithm power fh trial ievt event) = Val tt.
Proof.
  unfold process_event. cbv zeta. rewrite bind_emit. cbn [fst].
  destruct (ptmin_option o), (dijmax_option o), (njets_option o);
    rewrite ?bind_emit, ?bind_ret_l;
    destruct (is_set (dump_option o) && (trial =? 0));
    rewrite ?bind_emit; try reflexivity;
    destruct (debug_clusterseq_option o); reflexivity.
Qed.

Lemma main_help (w : World) (o : options) :
  help_count o = 1 -> main w o = (Exited 0, [Cout MsgHelp]).
Proof. intros H. unfold main. now rewrite show_help_shown. Qed.

Lemma main_rejects_selection (w : World) (o : options) :
  help_count o <> 1 -> selection_count o <> 1 ->
  main w o
  = (Exited 1,
     snd (get_input_file o) ++ [Cerr (MsgSelectionCount (selection_count o))]).
Proof.
  intros Hh Hs. unfold main.
  rewrite show_help_skipped by exact Hh. rewrite bind_val. cbn [app].
  rewrite (bind_returns _ _ _ (get_input_file_returns o)).
  rewrite check_selection_rejects by exact Hs. reflexivity.
Qed.


Lemma main_unknown_algorithm (w : World) (o : options) :
  help_count o <> 1 -> selection_count o = 1 ->
  known_algorithm (alg o) = false ->
  main w o
  = (Exited 1,
     snd (get_input_file o)
     ++ snd (read_input_events (fs w) (input_file o) (maxevents o))
     ++ [Cout (MsgUnknownAlgorithm (alg o))]).
Proof.
  intros Hh Hs Ha. unfold main.
  rewrite show_help_skipped by exact Hh. rewrite bind_val. cbn [app].
  rewrite (bind_returns _ _ _ (get_input_file_returns o)).
  rewrite check_selection_passes by exact Hs. rewrite bind_val. cbn [app].
  destruct (read_input_events_returns (fs w) (input_file o) (maxevents o))
    as [evs [tr Hr]].
  rewrite Hr, bind_val. cbv zeta.
  rewrite select_algorithm_unknown by exact Ha. rewrite bind_exited.
  reflexivity.
Qed.

Lemma finder_accepted_inv (o : options) :
  accepted o = true ->
  help_count o <> 1 /\ selection_count o = 1 /\ known_algorithm (alg o) = true.
Proof.
  unfold accepted. intros H.
  apply andb_prop in H. destruct H as [H Ha].
  apply andb_prop in H. destruct H as [Hh Hs].
  apply negb_true_iff in Hh. zbool. auto.
Qed.

Lemma finder_timed_spec (w : World) (o : options) :
  let acc := fold_left (record_trial (us_elapsed w))
                       (range 0 (trials o)) initial_timing in
  timed w o
  = (Val (summarize (events w o) (trials o) acc),
     flat_map (trial_trace (us_elapsed w) (events w o) (body w o)
                           (size_t_of_int (skip_events o)))
              (range 0 (trials o))
     ++ report (events w o) (trials o)
               (summarize (events w o) (trials o) acc)).
Proof.
  apply benchmark_spec.
  - intros. apply finder_process_event_returns.
  - unfold size_t_of_int. apply Z.mod_pos_bound. lia.
Qed.

(** An accepted command line runs to the end: [main] returns 0 after the
    setup, the trials and the report. *)
Lemma finder_main_accepted (w : World) (o : options) :
  accepted o = true ->
  main w o = (Val 0, setup w o ++ snd (timed w o)).
Proof.
  intros H. destruct (finder_accepted_inv o H) as [Hh [Hs Ha]].
  unfold main, setup.
  rewrite show_help_skipped by exact Hh. rewrite bind_val. cbn [app].
  rewrite (bind_returns _ _ _ (get_input_file_returns o)).
  rewrite check_selection_passes by exact Hs. rewrite bind_val. cbn [app].
  pose proof (read_input_events_value
                (fs w) (input_file o) (maxevents o)) as Hr.
  rewrite (bind_returns _ _ _ Hr). cbv zeta.
  rewrite select_algorithm_resolved by exact Ha. rewrite bind_val. cbn [app].
  destruct (resolved o) as [algorithm pw] eqn:Hres.
  rewrite bind_emit.
  rewrite (bind_returns _ _ _ (finder_open_dump_file_returns o)).
  assert (Ht : timed w o
               = benchmark (us_elapsed w) (events w o)
                   (process_event w o (strategy_of (mystrategy o))
                                  algorithm pw (dump_fh o))
                   (size_t_of_int (skip_events o)) (trials o)).
  { unfold timed, body. rewrite Hres. reflexivity. }
  fold (events w o). rewrite <- Ht.
  pose proof (finder_timed_spec w o) as Hb. cbv zeta in Hb.
  rewrite Hb, bind_val. cbn [fst snd].
  rewrite app_nil_r. unfold ret. cbn [fst snd].
  rewrite <- !app_assoc. reflexivity.
Qed.

End FinderFacts.

Module InclusiveFacts.

Import Inclusive InclusiveRun.

(** Option parsing ends in one of four ways: every option was read,
    [-h] was met ([exit(-1)]), an unknown option was
    ([exit(EXIT_FAILURE)]), or a conversion threw. *)
Lemma parse_options_cases (items : list getopt_item) :
  forall v,
    (exists v', fst (parse_options items v) = Val v')
    \/ fst (parse_options items v) = Exited (-1)
    \/ fst (parse_options items v) = Exited 1
    \/ fst (parse_options items v) = Aborted.
Proof.
  induction items as [| item rest IH]; intros v; cbn [parse_options].
  - left. eexists. reflexivity.
  - destruct item; try apply IH.
    + right. right. right. reflexivity.
    + right. left. reflexivity.
    + right. right. left. reflexivity.
Qed.

Lemma parse_options_silent (items : list getopt_item) :
  forall v, touches_input (snd (parse_options items v)) = false.
Proof.
  induction items as [| item rest IH]; intros v; cbn [parse_options].
  - reflexivity.
  - destruct item; try apply IH; reflexivity.
Qed.

Lemma parse_options_stop (items : list getopt_item) :
  forall v,
    match first_stop items with
    | Some opt_throws => parse_options items v = (Aborted, [])
    | Some opt_h =>
        exists m n,
          parse_options items v = (Exited (-1), [Cout (MsgUsageHelp m n)])
    | Some _ => parse_options items v = (Exited 1, [Cout MsgUsage])
    | None => exists v', parse_options items v = (Val v', [])
    end.
Proof.
  induction items as [| item rest IH]; intros v;
    cbn [parse_options first_stop].
  - eexists. reflexivity.
  - destruct item; try apply IH; try reflexivity.
    do 2 eexists. reflexivity.
Qed.

Lemma accepted_first_stop (c : command_line) :
  accepted c = true
  <-> first_stop (getopt_items c) = None /\ exists f, operands c = [f].
Proof.
  unfold accepted.
  pose proof (parse_options_stop (getopt_items c) defaults) as H.
  destruct (first_stop (getopt_items c)) as [item |].
  { destruct item;
      try match type of H with ex _ => destruct H as [m [n H]] end;
      rewrite H; cbn [fst];
      (split; [discriminate | intros [E _]; discriminate]). }
  destruct H as [v' H]. rewrite H. cbn [fst].
  destruct (operands c) as [| f [| g l]].
  - split; [discriminate | intros [_ [f E]]; discriminate].
  - split; [eauto | reflexivity].
  - split; [discriminate | intros [_ [f' E]]; discriminate].
Qed.

Lemma get_input_file_one (c : command_line) (f : string) :
  operands c = [f] -> get_input_file c = (Val f, []).
Proof. unfold get_input_file. now intros ->. Qed.

Lemma get_input_file_rejects (c : command_line) :
  (forall f, operands c <> [f]) ->
  exists tr, get_input_file c = (Exited 1, tr).
Proof.
  unfold get_input_file. intros H.
  destruct (operands c) as [| f [| g l]].
  - eexists. reflexivity.
  - now destruct (H f).
  - eexists. reflexivity.
Qed.

Lemma inclusive_open_dump_file_returns (c : command_line) :
  fst (open_dump_file (parsed c)) = Val (dump_fh c).
Proof.
  unfold open_dump_file, dump_fh, open_dump.
  destruct (dump (parsed c)); [| reflexivity].
  destruct (String.eqb (dump_file (parsed c)) "-"); reflexivity.
Qed.

Lemma inclusive_process_event_returns (w : World) (v : vars) (strategy : Strategy)
    (algorithm : JetAlgorithm) (fh : dump_target)
    (trial ievt : Z) (event : Event) :
  fst (process_event w v strategy algorithm fh trial ievt event) = Val tt.
Proof.
  unfold process_event. cbv zeta. rewrite bind_emit. cbn [fst].
  destruct (dump v); reflexivity.
Qed.

Lemma inclusive_timed_spec (w : World) (c : command_line) :
  let acc := fold_left (record_trial (us_elapsed w))
                       (range 0 (trials (parsed c))) initial_timing in
  timed w c
  = (Val (summarize (events w c) (trials (parsed c)) acc),
     flat_map (trial_trace (us_elapsed w) (events w c) (body w c) 0)
              (range 0 (trials (parsed c)))
     ++ report (events w c) (trials (parsed c))
               (summarize (events w c) (trials (parsed c)) acc)).
Proof.
  apply benchmark_spec.
  - intros. apply inclusive_process_event_returns.
  - lia.
Qed.

Lemma inclusive_accepted_inv (c : command_line) :
  accepted c = true ->
  fst (parse_options (getopt_items c) defaults) = Val (parsed c)
  /\ operands c = [input_file c].
Proof.
  unfold accepted, parsed, input_file.
  destruct (fst (parse_options (getopt_items c) defaults)); try discriminate.
  destruct (operands c) as [| f [| g l]]; try discriminate. auto.
Qed.

(** An accepted command line runs to the end. *)
Lemma inclusive_main_accepted (w : World) (c : command_line) :
  accepted c = true ->
  main w c = (Val 0, setup w c ++ snd (timed w c)).
Proof.
  intros H. destruct (inclusive_accepted_inv c H) as [Hp Hf].
  unfold main, setup.
  rewrite (bind_returns _ _ _ Hp).
  rewrite (get_input_file_one c _ Hf), bind_val. cbn [app].
  pose proof (read_input_events_value
                (fs w) (input_file c) (maxevents (parsed c))) as Hr.
  rewrite (bind_returns _ _ _ Hr). cbv zeta.
  rewrite bind_emit.
  rewrite (bind_returns _ _ _ (inclusive_open_dump_file_returns c)).
  fold (events w c). fold (body w c). fold (timed w c).
  pose proof (inclusive_timed_spec w c) as Hb. cbv zeta in Hb.
  rewrite Hb, bind_val. cbn [fst snd].
  rewrite app_nil_r. unfold ret. cbn [fst snd].
  rewrite <- !app_assoc. reflexivity.
Qed.

(** A command line that is not accepted ends in [exit(-1)] (help), in
    [exit(EXIT_FAILURE)] or in an uncaught exception, before the reader is
    opened. *)
Lemma main_rejected (w : World) (c : command_line) :
  accepted c = false ->
  exists r tr,
    main w c = (r, tr)
    /\ (r = Exited (-1) \/ r = Exited 1 \/ r = Aborted)
    /\ touches_input tr = false.
Proof.
  intros H. unfold main, accepted in *.
  destruct (parse_options (getopt_items c) defaults) as [r t] eqn:Hp.
  pose proof (parse_options_cases (getopt_items c) defaults) as Hcases.
  pose proof (parse_options_silent (getopt_items c) defaults) as Hsilent.
  rewrite Hp in Hcases, Hsilent. cbn [fst snd] in *.
  destruct Hcases as [[v' Hv] | [He | [He | He]]]; subst r.
  - rewrite bind_val.
    destruct (get_input_file_rejects c) as [tr Htr].
    { intros f Hf. rewrite Hf in H. discriminate. }
    rewrite Htr, bind_exited. cbn [fst snd].
    exists (Exited 1), (t ++ tr). repeat split; [auto |].
    unfold touches_input. rewrite existsb_app. fold (touches_input t).
    rewrite Hsilent. cbn [orb].
    unfold get_input_file in Htr.
    destruct (operands c) as [| f [| g l]]; inversion Htr; reflexivity.
  - rewrite bind_exited. exists (Exited (-1)), t. auto.
  - rewrite bind_exited. exists (Exited 1), t. auto.
  - rewrite bind_aborted. exists Aborted, t. auto.
Qed.

End InclusiveFacts.

(** ** Runs of either program *)

Module RunFacts.

Import Run.

(** An accepted command line runs to the end: [main] returns 0 after the
    setup, the trials and the four lines of the report. *)
Lemma run_main_accepted (w : World) (i : invocation) :
  accepted i = true ->
  main w i
  = (Val 0,
     setup w i ++ trials_trace w i
     ++ report (events w i) (trials i) (result w i)).
Proof.
  destruct i as [o | c]; intros H; cbn [main setup].
  - rewrite FinderFacts.finder_main_accepted by exact H.
    pose proof (FinderFacts.finder_timed_spec w o) as Ht. cbv zeta in Ht.
    rewrite Ht. reflexivity.
  - rewrite InclusiveFacts.inclusive_main_accepted by exact H.
    pose proof (InclusiveFacts.inclusive_timed_spec w c) as Ht. cbv zeta in Ht.
    rewrite Ht. reflexivity.
Qed.





End RunFacts.

(** ** What the trials cluster and dump *)

Lemma elapsed_times_app (t1 t2 : trace) :
  elapsed_times (t1 ++ t2) = elapsed_times t1 ++ elapsed_times t2.
Proof. apply flat_map_app. Qed.





Section TrialTraces.

Variable us_elapsed : Z -> float.
Variable events : list Event.
Variable body : Z -> Z -> Event -> M unit.
Variable first_event : Z.

(** The body clusters the event it is given, once. *)
Hypothesis body_clusters :
  forall trial k ievt event,
    clustered trial (snd (body k ievt event))
    = if k =? trial then [(ievt, event)] else [].

Lemma clustered_events (trial k : Z) (l : list Z) :
  clustered trial (flat_map (event_trace events body k) l)
  = if k =? trial
    then map (fun i => (i, nth (Z.to_nat i) events [])) l
    else [].
Proof.
  induction l as [| i l IH]; cbn [flat_map map].
  - now destruct (k =? trial).
  - rewrite clustered_app, IH. unfold event_trace. rewrite body_clusters.
    now destruct (k =? trial).
Qed.

Lemma clustered_trial (trial k : Z) :
  clustered trial (trial_trace us_elapsed events body first_event k)
  = if k =? trial then indexed_from first_event events else [].
Proof.
  unfold trial_trace.
  change (Cout (MsgTrial k) :: ?l) with ([Cout (MsgTrial k)] ++ l).
  rewrite !clustered_app, clustered_events. cbn [clustered flat_map app].
  rewrite app_nil_r. reflexivity.
Qed.

Lemma clustered_trials (trial : Z) (len : nat) :
  forall start,
    clustered trial
      (flat_map (trial_trace us_elapsed events body first_event)
                (iota start len))
    = if (start <=? trial) && (trial <? start + Z.of_nat len)
      then indexed_from first_event events
      else [].
Proof.
  induction len as [| len IH]; intros start; cbn [iota flat_map].
  - destruct (start <=? trial) eqn:E1;
      destruct (trial <? start + Z.of_nat 0) eqn:E2; zbool;
      try reflexivity; lia.
  - rewrite clustered_app, clustered_trial, IH.
    destruct (start =? trial) eqn:E0; zbool.
    + subst start.
      replace (trial + 1 <=? trial) with false by (symmetry; apply Z.leb_gt; lia).
      replace (trial <=? trial) with true by (symmetry; apply Z.leb_le; lia).
      replace (trial <? trial + Z.of_nat (S len)) with true
        by (symmetry; apply Z.ltb_lt; lia).
      cbn [andb]. apply app_nil_r.
    + cbn [app].
      destruct (start <=? trial) eqn:E1;
        destruct (start + 1 <=? trial) eqn:E2; zbool; try lia; cbn [andb];
        [| reflexivity].
      replace (start + 1 + Z.of_nat len) with (start + Z.of_nat (S len)) by lia.
      reflexivity.
Qed.

(** The body dumps in trial 0 only. *)
Hypothesis body_dumps :
  forall k ievt event, dumps_in_trial_0 (snd (body k ievt event)).

Lemma trials_dump_in_trial_0 (l : list Z) :
  dumps_in_trial_0 (flat_map (trial_trace us_elapsed events body first_event) l).
Proof.
  unfold dumps_in_trial_0.
  induction l as [| k l IH]; cbn [flat_map]; [constructor |].
  rewrite dumps_app. apply Forall_app. split; [| exact IH].
  unfold trial_trace.
  change (Cout (MsgTrial k) :: ?t) with ([Cout (MsgTrial k)] ++ t).
  rewrite !dumps_app. cbn [dumps flat_map app]. rewrite app_nil_r.
  generalize (range first_event (Z.of_nat (List.length events))).
  intros idx. induction idx as [| i idx IHi]; cbn [flat_map]; [constructor |].
  rewrite dumps_app. apply Forall_app. split; [apply body_dumps | exact IHi].
Qed.

End TrialTraces.

(** ** The bodies of the two event loops *)

Lemma finder_body_clusters (w : World) (o : Finder.options)
    (strategy : Strategy) (algorithm : JetAlgorithm) (power : float)
    (fh : dump_target) (trial k ievt : Z) (event : Event) :
  clustered trial
    (snd (Finder.process_event w o strategy algorithm power fh k ievt event))
  = if k =? trial then [(ievt, event)] else [].
Proof.
  unfold Finder.process_event. cbv zeta. rewrite bind_emit. cbn [snd].
  unfold clustered. cbn [flat_map].
  destruct (Finder.ptmin_option o), (Finder.dijmax_option o),
    (Finder.njets_option o);
    rewrite ?bind_emit, ?bind_ret_l;
    destruct (Finder.is_set (Finder.dump_option o) && (k =? 0));
    rewrite ?bind_emit; cbn [snd flat_map];
    destruct (Finder.debug_clusterseq_option o); cbn [snd flat_map ret emit];
    destruct (k =? trial); reflexivity.
Qed.

Lemma finder_body_dumps (w : World) (o : Finder.options)
    (strategy : Strategy) (algorithm : JetAlgorithm) (power : float)
    (fh : dump_target) (k ievt : Z) (event : Event) :
  dumps_in_trial_0
    (snd (Finder.process_event w o strategy algorithm power fh k ievt event)).
Proof.
  unfold Finder.process_event, dumps_in_trial_0. cbv zeta.
  rewrite bind_emit. cbn [snd]. unfold dumps. cbn [flat_map app].
  destruct (Finder.ptmin_option o), (Finder.dijmax_option o),
    (Finder.njets_option o);
    rewrite ?bind_emit, ?bind_ret_l;
    (destruct (k =? 0) eqn:E0; zbool;
     [subst k |
      rewrite andb_false_r; cbn [snd flat_map ret]; repeat constructor]);
    destruct (Finder.is_set (Finder.dump_option o)); cbn [andb];
    rewrite ?bind_emit; cbn [snd flat_map ret app];
    try (destruct (Finder.debug_clusterseq_option o));
    cbn [snd flat_map ret emit app]; repeat constructor.
Qed.

Lemma inclusive_body_clusters (w : World) (v : Inclusive.vars)
    (strategy : Strategy) (algorithm : JetAlgorithm)
    (fh : dump_target) (trial k ievt : Z) (event : Event) :
  clustered trial
    (snd (Inclusive.process_event w v strategy algorithm fh k ievt event))
  = if k =? trial then [(ievt, event)] else [].
Proof.
  unfold Inclusive.process_event. cbv zeta. rewrite bind_emit. cbn [snd].
  unfold clustered. cbn [flat_map].
  destruct (Inclusive.dump v); cbn [snd flat_map ret emit];
    destruct (k =? trial); reflexivity.
Qed.

Lemma run_body_clusters (w : World) (i : invocation)
    (trial k ievt : Z) (event : Event) :
  clustered trial (snd (Run.body w i k ievt event))
  = if k =? trial then [(ievt, event)] else [].
Proof.
  destruct i as [o | c]; cbn [Run.body].
  - apply finder_body_clusters.
  - apply inclusive_body_clusters.
Qed.

(** ** The setup of a run *)

Lemma parse_options_quiet (items : list Inclusive.getopt_item) :
  forall v, quiet (snd (Inclusive.parse_options items v))
            /\ elapsed_times (snd (Inclusive.parse_options items v)) = [].
Proof.
  induction items as [| item rest IH]; intros v; cbn [Inclusive.parse_options].
  - split; [constructor | reflexivity].
  - destruct item; try apply IH; split; repeat constructor.
Qed.

Lemma inclusive_open_dump_file_trace (v : Inclusive.vars) :
  Forall (fun e => exists path, e = Fopen path)
         (snd (Inclusive.open_dump_file v)).
Proof.
  unfold Inclusive.open_dump_file, open_dump.
  destruct (Inclusive.dump v); [| constructor].
  destruct (String.eqb (Inclusive.dump_file v) "-"); simpl;
    repeat constructor; eauto.
Qed.

Lemma elapsed_times_cerr (tr : trace) :
  Forall (fun e => exists m, e = Cerr m) tr -> elapsed_times tr = [].
Proof.
  induction 1 as [| e tr [m ->] _ IH]; [reflexivity |].
  unfold elapsed_times in *. cbn [flat_map]. now rewrite IH.
Qed.

Lemma elapsed_times_fopen (tr : trace) :
  Forall (fun e => exists path, e = Fopen path) tr -> elapsed_times tr = [].
Proof.
  induction 1 as [| e tr [m ->] _ IH]; [reflexivity |].
  unfold elapsed_times in *. cbn [flat_map]. now rewrite IH.
Qed.

Lemma elapsed_times_read_input_events (fs : string -> ReaderAscii)
    (fname : string) (maxevents : Z) :
  elapsed_times (snd (read_input_events fs fname maxevents)) = [].
Proof.
  destruct (read_input_events_spec fs fname maxevents) as [k [H _]].
  rewrite H. cbn [snd]. unfold elapsed_times. cbn [flat_map app].
  rewrite flat_map_app. cbn [flat_map]. rewrite app_nil_r.
  clear H. induction k as [| k IH]; simpl; auto.
Qed.

(** Before the first trial nothing is clustered, dumped or timed. *)
Lemma setup_quiet (w : World) (i : invocation) :
  quiet (Run.setup w i) /\ elapsed_times (Run.setup w i) = [].
Proof.
  destruct i as [o | c]; cbn [Run.setup];
    unfold FinderRun.setup, InclusiveRun.setup.
  - split.
    + repeat (apply quiet_app; split).
      * apply quiet_cerr, FinderFacts.get_input_file_trace.
      * apply quiet_read_input_events.
      * repeat constructor.
      * apply quiet_fopen, FinderFacts.open_dump_file_trace.
    + rewrite !elapsed_times_app.
      rewrite (elapsed_times_cerr _ (FinderFacts.get_input_file_trace o)).
      rewrite elapsed_times_read_input_events.
      rewrite (elapsed_times_fopen _ (FinderFacts.open_dump_file_trace o)).
      reflexivity.
  - destruct (parse_options_quiet (Inclusive.getopt_items c) Inclusive.defaults)
      as [Hq He].
    split.
    + repeat (apply quiet_app; split).
      * exact Hq.
      * apply quiet_read_input_events.
      * repeat constructor.
      * apply quiet_fopen, inclusive_open_dump_file_trace.
    + rewrite !elapsed_times_app, He.
      rewrite elapsed_times_read_input_events.
      rewrite (elapsed_times_fopen _ (inclusive_open_dump_file_trace _)).
      reflexivity.
Qed.

(** What an accepted run clusters in one of its trials. *)
Lemma clustered_in_trial (w : World) (i : invocation) (trial : Z) :
  Run.accepted i = true ->
  clustered trial (snd (Run.main w i))
  = if (0 <=? trial) && (trial <? Run.trials i)
    then indexed_from (Run.first_event i) (Run.events w i)
    else [].
Proof.
  intros Hacc. rewrite RunFacts.run_main_accepted by exact Hacc. cbn [snd].
  rewrite !clustered_app.
  rewrite (quiet_clustered trial (Run.setup w i) (proj1 (setup_quiet w i))).
  rewrite (quiet_clustered
             trial (report (Run.events w i) (Run.trials i) (Run.result w i))
             (quiet_report _ _ _)).
  rewrite app_nil_r. cbn [app].
  unfold Run.trials_trace, range.
  rewrite clustered_trials by (intros; apply run_body_clusters).
  rewrite Z.sub_0_r.
  destruct (0 <=? trial) eqn:E1; cbn [andb]; [| reflexivity].
  destruct (trial <? Run.trials i) eqn:E2;
    destruct (trial <? 0 + Z.of_nat (Z.to_nat (Run.trials i))) eqn:E3;
    zbool; try reflexivity; lia.
Qed.

(** Every loop of a run ends, whatever the command line, the input and
    the engine: the reader loop, the trial loop and the event loop never
    exhaust their fuel.  How the run ends (a return, an [exit] or an
    uncaught exception) is another matter. *)
Lemma main_ends (w : World) (i : invocation) :
  fst (Run.main w i) <> OutOfFuel.
Proof.
  destruct (Run.accepted i) eqn:Hacc.
  { now rewrite RunFacts.run_main_accepted by exact Hacc. }
  destruct i as [o | c]; cbn [Run.main Run.accepted] in *.
  - destruct (Z.eq_dec (Finder.help_count o) 1) as [Hh | Hh].
    { now rewrite FinderFacts.main_help by exact Hh. }
    destruct (Z.eq_dec (Finder.selection_count o) 1) as [Hs | Hs].
    + destruct (FinderRun.known_algorithm (Finder.alg o)) eqn:Hk.
      * unfold FinderRun.accepted in Hacc. rewrite Hs, Hk in Hacc.
        destruct (Finder.help_count o =? 1) eqn:E; zbool;
          [contradiction | discriminate].
      * now rewrite FinderFacts.main_unknown_algorithm by assumption.
    + now rewrite FinderFacts.main_rejects_selection by assumption.
  - destruct (InclusiveFacts.main_rejected w c Hacc)
      as [r [tr [H [[-> | [-> | ->]] _]]]]; now rewrite H.
Qed.

(** * The claims *)



(** C2, as amended.  With an empty event store nothing is rejected: the
    run of either program ends with [main] returning 0, and each
    per-event number of its report is a division by [0.0], hence a NaN or
    an infinity. *)
Theorem empty_event_store_divides_by_zero (w : World) (i : invocation) :
  Run.accepted i = true ->
  Run.events w i = [] ->
  exists (s : summary) (pre : trace),
    Run.main w i = (Val 0, pre ++ report [] (Run.trials i) s)
    /\ not_finite (mean_per_event s) = true
    /\ not_finite (sigma_per_event s) = true
    /\ not_finite (lowest_per_event s) = true.
Proof.
  intros Hacc Hev.
  exists (Run.result w i), (Run.setup w i ++ Run.trials_trace w i).
  split.
  - rewrite RunFacts.run_main_accepted by exact Hacc.
    now rewrite Hev, app_assoc.
  - unfold Run.result, summarize. rewrite Hev.
    cbn [mean_per_event sigma_per_event lowest_per_event List.length].
    change (Double.of_size 0) with 0%float.
    unfold not_finite. repeat split; apply div_by_zero.
Qed.

Lemma empty_event_store_divides_by_zero_witness :
  let w := Sample.empty_world in
  let i := finder Sample.finder_ptmin in
  Run.events w i = []
  /\ exists (s : summary) (pre : trace),
      Run.main w i = (Val 0, pre ++ report [] (Run.trials i) s)
      /\ not_finite (mean_per_event s) = true
      /\ not_finite (sigma_per_event s) = true
      /\ not_finite (lowest_per_event s) = true.
Proof.
  cbv zeta. split; [reflexivity |].
  apply (empty_event_store_divides_by_zero Sample.empty_world
                                           (finder Sample.finder_ptmin));
    reflexivity.
Defined.

(** C2, as stated, fails: [fastjet-finder --ptmin 0.5] on a file without
    events raises no error; it returns 0 and reports an infinite mean, a
    NaN deviation and an infinite lowest time. *)
Lemma empty_event_store_is_not_rejected :
  Finder.main Sample.empty_world Sample.finder_ptmin
  = (Val 0,
     [OpenReader "events.hepmc3"; ReadEvent;
      Cout (MsgRead 0 "events.hepmc3");
      Cout (MsgStrategy "Best" (-1) antikt_algorithm);
      Cout (MsgTrial 0); Cout (MsgElapsed 100);
      Cout (MsgProcessed 0 1); Cout (MsgTotalTime 100);
      Cout (MsgTimePerEvent infinity nan); Cout (MsgLowest infinity)]).
Proof. vm_compute. reflexivity. Qed.








(** Without a file name the finder reports it and goes on: it opens the
    empty name, reads no event and returns 0; the inclusive harness exits
    with [EXIT_FAILURE] there. *)
Lemma finder_goes_on_without_input_file :
  Finder.main Sample.two_event_world Sample.finder_no_file
  = (Val 0,
     [Cerr MsgNoInputFile; OpenReader ""; Cout (MsgRead 0 "");
      Cout (MsgStrategy "Best" (-1) antikt_algorithm);
      Cout (MsgTrial 0); Cout (MsgElapsed 100);
      Cout (MsgProcessed 0 1); Cout (MsgTotalTime 100);
      Cout (MsgTimePerEvent infinity nan); Cout (MsgLowest infinity)])
  /\ fst (Inclusive.main Sample.two_event_world
                         (Inclusive.mkCommandLine [] []))
     = Exited EXIT_FAILURE.
Proof. vm_compute. auto. Qed.


(** In the finder every dump record is written in trial 0, whatever the
    command line. *)
Lemma finder_dumps_in_trial_0 (w : World) (o : Finder.options) :
  dumps_in_trial_0 (snd (Finder.main w o)).
Proof.
  unfold dumps_in_trial_0.
  destruct (Z.eq_dec (Finder.help_count o) 1) as [Hh | Hh].
  { rewrite FinderFacts.main_help by exact Hh. constructor. }
  destruct (Z.eq_dec (Finder.selection_count o) 1) as [Hs | Hs].
  2:{ rewrite FinderFacts.main_rejects_selection by assumption. cbn [snd].
      rewrite quiet_dumps; [constructor |].
      apply quiet_app. split; [| repeat constructor].
      apply quiet_cerr, FinderFacts.get_input_file_trace. }
  destruct (FinderRun.known_algorithm (Finder.alg o)) eqn:Hk.
  2:{ rewrite FinderFacts.main_unknown_algorithm by assumption. cbn [snd].
      rewrite quiet_dumps; [constructor |].
      repeat (apply quiet_app; split); [| | repeat constructor].
      - apply quiet_cerr, FinderFacts.get_input_file_trace.
      - apply quiet_read_input_events. }
  assert (Hacc : Run.accepted (finder o) = true).
  { cbn [Run.accepted]. unfold FinderRun.accepted. rewrite Hs, Hk.
    destruct (Finder.help_count o =? 1) eqn:E; zbool;
      [contradiction | reflexivity]. }
  change (Finder.main w o) with (Run.main w (finder o)).
  rewrite RunFacts.run_main_accepted by exact Hacc. cbn [snd].
  rewrite !dumps_app.
  rewrite (quiet_dumps (Run.setup w (finder o)) (proj1 (setup_quiet w _))).
  change (dumps (report (Run.events w (finder o)) (Run.trials (finder o))
                        (Run.result w (finder o))))
    with (@nil (Z * Z)).
  rewrite app_nil_r. cbn [app].
  apply trials_dump_in_trial_0. intros. apply finder_body_dumps.
Qed.

(** C5.  The inclusive harness breaks the claim: with a dump target and
    two trials ([fastjet-inclusive -n 2 -d - events.hepmc3], one event) it
    writes the dump record of event 1 in trial 0 and again in trial 1.
    The finder keeps it ([finder_dumps_in_trial_0]). *)
Theorem inclusive_dumps_in_every_trial :
  dumps (snd (Inclusive.main Sample.one_event_world Sample.inclusive_dump))
  = [(0, 1); (1, 1)].
Proof. vm_compute. reflexivity. Qed.




(** C9.  With [trials = 0], and with any non-positive trial count, an
    accepted run of either program goes through: no guard rejects it, the
    trial loop does nothing (no event is clustered, no elapsed time is
    printed), the lowest time reported is the sentinel [1.0e20] divided by
    the event count and [main] returns 0; with [trials = 0] the statistics
    stage divides the accumulated [0.0] by the trial count, which gives a
    NaN. *)
Theorem zero_trials (w : World) (i : invocation) :
  Run.accepted i = true ->
  Run.trials i <= 0 ->
  exists s : summary,
    Run.main w i
    = (Val 0, Run.setup w i ++ report (Run.events w i) (Run.trials i) s)
    /\ (forall trial, clustered trial (snd (Run.main w i)) = [])
    /\ elapsed_times (snd (Run.main w i)) = []
    /\ mean_time s = (0 / Double.of_int (Run.trials i))%float
    /\ (Run.trials i = 0 -> Double.is_nan (mean_time s) = true)
    /\ lowest_per_event s
       = (1e20 / Double.of_size (List.length (Run.events w i)))%float.
Proof.
  intros Hacc H0.
  assert (Hrange : range 0 (Run.trials i) = []) by (apply range_empty; lia).
  assert (Hmain : Run.main w i
                  = (Val 0, Run.setup w i
                            ++ report (Run.events w i) (Run.trials i)
                                      (Run.result w i))).
  { rewrite RunFacts.run_main_accepted by exact Hacc.
    unfold Run.trials_trace. rewrite Hrange. reflexivity. }
  exists (Run.result w i). split; [exact Hmain |].
  split; [| split; [| split; [| split]]].
  - intros trial. rewrite clustered_in_trial by exact Hacc.
    destruct (0 <=? trial) eqn:E1; destruct (trial <? Run.trials i) eqn:E2;
      zbool; try reflexivity; lia.
  - rewrite Hmain. cbn [snd]. rewrite elapsed_times_app.
    rewrite (proj2 (setup_quiet w i)). reflexivity.
  - unfold Run.result, Run.totals, summarize. rewrite Hrange. reflexivity.
  - intros E. unfold Run.result, Run.totals, summarize.
    rewrite Hrange, E. reflexivity.
  - unfold Run.result, Run.totals, summarize. rewrite Hrange. reflexivity.
Qed.

Lemma zero_trials_witness :
  let w := Sample.two_event_world in
  let i := finder Sample.finder_no_trial in
  Run.trials i = 0
  /\ exists s : summary,
      Run.main w i
      = (Val 0, Run.setup w i ++ report (Run.events w i) (Run.trials i) s)
      /\ (forall trial, clustered trial (snd (Run.main w i)) = [])
      /\ elapsed_times (snd (Run.main w i)) = []
      /\ mean_time s = (0 / Double.of_int (Run.trials i))%float
      /\ (Run.trials i = 0 -> Double.is_nan (mean_time s) = true)
      /\ lowest_per_event s
         = (1e20 / Double.of_size (List.length (Run.events w i)))%float.
Proof.
  cbv zeta. split; [reflexivity |].
  apply (zero_trials Sample.two_event_world (finder Sample.finder_no_trial));
    [reflexivity | vm_compute; discriminate].
Defined.

(** C8, as amended.  In the finder, when no [--algorithm] name is given, a
    power of [-1] selects AntiKt, a power of zero (of either sign)
    CambridgeAachen, a power of [1] Kt and every other power GenKt, the
    power being left as given.  The inclusive harness has no
    [--algorithm] option and an integer power: [0] selects CambridgeAachen,
    [1] Kt and every other power, [-1] included, AntiKt; it never selects
    GenKt. *)
Theorem power_selects_algorithm :
  (forall p : float,
      exists a : JetAlgorithm,
        Finder.select_algorithm "" p = (Val (a, p), [])
        /\ (p = (-1)%float -> a = antikt_algorithm)
        /\ (p = 0%float \/ p = neg_zero -> a = cambridge_aachen_algorithm)
        /\ (p = 1%float -> a = kt_algorithm)
        /\ (p <> (-1)%float -> p <> 0%float -> p <> neg_zero ->
            p <> 1%float -> a = genkt_algorithm))
  /\ (forall p : Z,
         (p = 0 -> Inclusive.select_algorithm p = cambridge_aachen_algorithm)
         /\ (p = 1 -> Inclusive.select_algorithm p = kt_algorithm)
         /\ (p <> 0 -> p <> 1 ->
             Inclusive.select_algorithm p = antikt_algorithm)).
Proof.
  split.
  - intros p. unfold Finder.select_algorithm. cbn [String.eqb negb].
    destruct (p =? -1)%float eqn:E1.
    { apply (eqb_finite p (-1) true 4503599627370496 (-52) eq_refl) in E1.
      subst p. eexists. split; [reflexivity |].
      split; [| split; [| split]].
      - reflexivity.
      - intros [H | H]; float_neq H.
      - intros H; float_neq H.
      - intros H. exfalso. now apply H. }
    destruct (p =? 0)%float eqn:E2.
    { apply eqb_zero in E2. eexists. split; [reflexivity |].
      split; [| split; [| split]].
      - intros ->. destruct E2 as [H | H]; float_neq H.
      - reflexivity.
      - intros ->. destruct E2 as [H | H]; float_neq H.
      - intros _ H0 Hz _. exfalso. destruct E2; contradiction. }
    destruct (p =? 1)%float eqn:E3.
    { apply (eqb_finite p 1 false 4503599627370496 (-52) eq_refl) in E3.
      subst p. eexists. split; [reflexivity |].
      split; [| split; [| split]].
      - intros H; float_neq H.
      - intros [H | H]; float_neq H.
      - reflexivity.
      - intros _ _ _ H. exfalso. now apply H. }
    eexists. split; [reflexivity |].
    split; [| split; [| split]].
    + intros ->. discriminate E1.
    + intros [-> | ->]; discriminate E2.
    + intros ->. discriminate E3.
    + reflexivity.
  - intros p. unfold Inclusive.select_algorithm. split; [| split].
    + now intros ->.
    + now intros ->.
    + intros H0 H1.
      destruct (p =? 0) eqn:E0; destruct (p =? 1) eqn:E1; zbool;
        try contradiction; reflexivity.
Qed.

Lemma power_selects_algorithm_witness :
  fst (Finder.select_algorithm "" 2) = Val (genkt_algorithm, 2%float)
  /\ fst (Finder.select_algorithm "" (-1)) = Val (antikt_algorithm, (-1)%float)
  /\ Inclusive.select_algorithm (-1) = antikt_algorithm.
Proof.
  pose proof power_selects_algorithm as [Hf Hi].
  split; [| split].
  - destruct (Hf 2%float) as [a [H [_ [_ [_ Hg]]]]].
    rewrite H. cbn [fst]. f_equal. f_equal.
    apply Hg; intros E; float_neq E.
  - destruct (Hf (-1)%float) as [a [H [Ha _]]].
    rewrite H. cbn [fst]. f_equal. f_equal. apply Ha. reflexivity.
  - apply (proj2 (proj2 (Hi (-1)))); discriminate.
Defined.

(** C8, as stated, fails: [fastjet-inclusive -n 1 -p 2] clusters its event
    with AntiKt, not with GenKt. *)
Lemma inclusive_power_2_is_antikt :
  Inclusive.power (InclusiveRun.parsed Sample.inclusive_power_2) = 2
  /\ algorithms_used
       (snd (Inclusive.main Sample.one_event_world Sample.inclusive_power_2))
     = [antikt_algorithm].
Proof. vm_compute. auto. Qed.

(** * Further properties of the harness *)

(** ** Reading a run's trace *)

Lemma collect_app {A : Type} (g : effect -> list A) (t1 t2 : trace) :
  collect g (t1 ++ t2) = collect g t1 ++ collect g t2.
Proof. apply flat_map_app. Qed.

Lemma collect_none {A : Type} (g : effect -> list A) (P : effect -> bool)
    (tr : trace) :
  (forall e, P e = true -> g e = []) ->
  Forall (fun e => P e = true) tr -> collect g tr = [].
Proof.
  intros Hg. induction 1 as [| e tr He _ IH]; [reflexivity |].
  unfold collect in *. cbn [flat_map]. now rewrite IH, (Hg e He).
Qed.

Lemma collect_trials {A : Type} (g : effect -> list A)
    (us : Z -> float) (events : list Event) (body : Z -> Z -> Event -> M unit)
    (first : Z) (l : list Z) :
  collect g (flat_map (trial_trace us events body first) l)
  = flat_map
      (fun t =>
         g (Cout (MsgTrial t))
         ++ flat_map (fun ievt => collect g (event_trace events body t ievt))
                     (range first (Z.of_nat (List.length events)))
         ++ g (Cout (MsgElapsed (us t)))) l.
Proof.
  induction l as [| t l IH]; [reflexivity |].
  cbn [flat_map]. rewrite collect_app, IH. f_equal.
  unfold trial_trace.
  change (Cout (MsgTrial t) :: ?x) with ([Cout (MsgTrial t)] ++ x).
  rewrite !collect_app. unfold collect at 1 3. cbn [flat_map].
  rewrite !app_nil_r. f_equal. f_equal.
  generalize (range first (Z.of_nat (List.length events))).
  intros idx. induction idx as [| i idx IHi]; [reflexivity |].
  cbn [flat_map]. now rewrite collect_app, IHi.
Qed.

(** The trace of an accepted run, read through [collect]. *)
Lemma collect_main {A : Type} (g : effect -> list A) (w : World)
    (i : invocation) :
  Run.accepted i = true ->
  collect g (snd (Run.main w i))
  = collect g (Run.setup w i)
    ++ flat_map
         (fun t =>
            g (Cout (MsgTrial t))
            ++ flat_map
                 (fun ievt =>
                    collect g (event_trace (Run.events w i) (Run.body w i)
                                           t ievt))
                 (range (Run.first_event i)
                        (Z.of_nat (List.length (Run.events w i))))
            ++ g (Cout (MsgElapsed (us_elapsed w t))))
         (range 0 (Run.trials i))
    ++ collect g (report (Run.events w i) (Run.trials i) (Run.result w i)).
Proof.
  intros Hacc. rewrite RunFacts.run_main_accepted by exact Hacc. cbn [snd].
  rewrite !collect_app. unfold Run.trials_trace.
  now rewrite collect_trials.
Qed.

Lemma read_input_events_setup_effects (fs : string -> ReaderAscii)
    (fname : string) (maxevents : Z) :
  Forall (fun e => setup_effect e = true)
         (snd (read_input_events fs fname maxevents)).
Proof.
  destruct (read_input_events_spec fs fname maxevents) as [k [H _]].
  rewrite H. cbn [snd]. constructor; [reflexivity |].
  apply Forall_app. split; [| repeat constructor].
  clear H. induction k as [| k IH]; simpl; constructor; auto.
Qed.

(** Before its first trial an accepted run only reports on the input
    file, loads the events, prints the strategy line and opens the dump
    file. *)
Lemma setup_effects (w : World) (i : invocation) :
  Run.accepted i = true ->
  Forall (fun e => setup_effect e = true) (Run.setup w i).
Proof.
  destruct i as [o | c]; cbn [Run.accepted Run.setup]; intros Hacc;
    unfold FinderRun.setup, InclusiveRun.setup;
    repeat (apply Forall_app; split).
  - eapply Forall_impl; [| apply FinderFacts.get_input_file_trace].
    now intros e [m ->].
  - apply read_input_events_setup_effects.
  - repeat constructor.
  - eapply Forall_impl; [| apply FinderFacts.open_dump_file_trace].
    now intros e [m ->].
  - apply InclusiveFacts.accepted_first_stop in Hacc. destruct Hacc as [Hs _].
    pose proof (InclusiveFacts.parse_options_stop
                  (Inclusive.getopt_items c) Inclusive.defaults) as Hp.
    rewrite Hs in Hp. destruct Hp as [v' Hp]. rewrite Hp. constructor.
  - apply read_input_events_setup_effects.
  - repeat constructor.
  - eapply Forall_impl; [| apply inclusive_open_dump_file_trace].
    now intros e [m ->].
Qed.

(** What the body of the finder's event loop does, in full. *)
Lemma finder_body_trace (w : World) (o : Finder.options)
    (strategy : Strategy) (algorithm : JetAlgorithm) (power : float)
    (fh : dump_target) (trial ievt : Z) (event : Event) :
  snd (Finder.process_event w o strategy algorithm power fh trial ievt event)
  = Cluster trial ievt
            (Finder.jet_definition strategy algorithm (Finder.R o) power) event
    :: match Finder.ptmin_option o, Finder.dijmax_option o with
       | None, Some dijmax => [Cout (MsgDijmax dijmax)]
       | _, _ => []
       end
    ++ (if Finder.is_set (Finder.dump_option o) && (trial =? 0)
        then DumpJets fh trial (ievt + 1)
                      (finder_final_jets
                         w o
                         (Finder.run_fastjet_clustering
                            w event strategy algorithm (Finder.R o) power))
             :: (if Finder.debug_clusterseq_option o
                 then [DumpClusterSeq trial ievt] else [])
        else []).
Proof.
  unfold Finder.process_event, finder_final_jets. cbv zeta.
  rewrite bind_emit. cbn [snd]. f_equal.
  destruct (Finder.ptmin_option o), (Finder.dijmax_option o),
    (Finder.njets_option o);
    rewrite ?bind_emit, ?bind_ret_l;
    destruct (Finder.is_set (Finder.dump_option o) && (trial =? 0));
    rewrite ?bind_emit; cbn [snd app];
    destruct (Finder.debug_clusterseq_option o); reflexivity.
Qed.

(** What the body of the inclusive harness' event loop does, in full. *)
Lemma inclusive_body_trace (w : World) (v : Inclusive.vars)
    (strategy : Strategy) (algorithm : JetAlgorithm)
    (fh : dump_target) (trial ievt : Z) (event : Event) :
  snd (Inclusive.process_event w v strategy algorithm fh trial ievt event)
  = Cluster trial ievt
            (JetDefinition_R algorithm (Inclusive.R v) E_scheme strategy) event
    :: (if Inclusive.dump v
        then [DumpJets fh trial (ievt + 1)
                       (Inclusive.run_fastjet_clustering
                          w event strategy algorithm (Inclusive.R v)
                          (Inclusive.ptmin v))]
        else []).
Proof.
  unfold Inclusive.process_event. cbv zeta. rewrite bind_emit. cbn [snd].
  destruct (Inclusive.dump v); reflexivity.
Qed.

Lemma flat_map_nil {A B : Type} (l : list A) :
  flat_map (fun _ : A => @nil B) l = [].
Proof. induction l; simpl; auto. Qed.

Lemma flat_map_singleton {A B : Type} (f : A -> B) (l : list A) :
  flat_map (fun x => [f x]) l = map f l.
Proof. induction l as [| a l IH]; simpl; [| rewrite IH]; reflexivity. Qed.

Lemma Forall_flat_map {A B : Type} (P : B -> Prop) (f : A -> list B)
    (l : list A) :
  (forall x, Forall P (f x)) -> Forall P (flat_map f l).
Proof.
  intros H. induction l as [| a l IH]; simpl; [constructor |].
  apply Forall_app. auto.
Qed.

Lemma range_length (start stop : Z) :
  List.length (range start stop) = Z.to_nat (stop - start).
Proof.
  unfold range. generalize (Z.to_nat (stop - start)). intros len.
  revert start. induction len as [| len IH]; intros start; simpl;
    [| rewrite IH]; reflexivity.
Qed.

(** The body of either event loop only clusters, dumps and prints the
    [dijmax] line. *)
Lemma run_body_effects (w : World) (i : invocation) (trial ievt : Z)
    (event : Event) :
  Forall (fun e => body_effect e = true) (snd (Run.body w i trial ievt event)).
Proof.
  destruct i as [o | c]; cbn [Run.body];
    unfold FinderRun.body, InclusiveRun.body.
  - rewrite finder_body_trace. constructor; [reflexivity |].
    apply Forall_app. split.
    + destruct (Finder.ptmin_option o), (Finder.dijmax_option o);
        repeat constructor.
    + destruct (Finder.is_set (Finder.dump_option o) && (trial =? 0));
        [| constructor].
      destruct (Finder.debug_clusterseq_option o); repeat constructor.
  - rewrite inclusive_body_trace. constructor; [reflexivity |].
    destruct (Inclusive.dump (InclusiveRun.parsed c)); repeat constructor.
Qed.


(** ** What an accepted run prints *)





(** ** What an accepted run clusters *)



(** ** Rejected command lines *)

Lemma inclusive_rejected_prints (w : World) (c : Inclusive.command_line) :
  InclusiveRun.accepted c = false ->
  Forall (fun e => print_effect e = true) (snd (Inclusive.main w c)).
Proof.
  intros Hacc.
  pose proof (InclusiveFacts.parse_options_stop
                (Inclusive.getopt_items c) Inclusive.defaults) as Hp.
  unfold Inclusive.main.
  destruct (InclusiveRun.first_stop (Inclusive.getopt_items c))
    as [item |] eqn:Hs.
  - destruct item;
      try match type of Hp with ex _ => destruct Hp as [m [n Hp]] end;
      rewrite Hp; rewrite ?bind_exited, ?bind_aborted; repeat constructor.
  - destruct Hp as [v' Hp]. rewrite Hp, bind_val. cbn [app snd].
    assert (Hops : forall f, Inclusive.operands c <> [f]).
    { intros f Hf.
      assert (InclusiveRun.accepted c = true)
        by (apply InclusiveFacts.accepted_first_stop; eauto).
      congruence. }
    assert (Hg : exists tr,
               Inclusive.get_input_file c = (Exited 1, tr)
               /\ Forall (fun e => print_effect e = true) tr).
    { unfold Inclusive.get_input_file.
      destruct (Inclusive.operands c) as [| f [| g l]].
      - eexists. split; [reflexivity | repeat constructor].
      - now destruct (Hops f).
      - eexists. split; [reflexivity | repeat constructor]. }
    destruct Hg as [tr [Hg Htr]]. rewrite Hg, bind_exited. exact Htr.
Qed.

Lemma read_input_events_before_dump (fs : string -> ReaderAscii)
    (fname : string) (maxevents : Z) :
  Forall (fun e => before_dump e = true)
         (snd (read_input_events fs fname maxevents)).
Proof.
  destruct (read_input_events_spec fs fname maxevents) as [k [H _]].
  rewrite H. cbn [snd]. constructor; [reflexivity |].
  apply Forall_app. split; [| repeat constructor].
  clear H. induction k as [| k IH]; simpl; constructor; auto.
Qed.

(** A run that is not accepted ends before the dump file is opened and
    before anything is clustered or dumped. *)
Lemma rejected_before_dump (w : World) (i : invocation) :
  Run.accepted i = false ->
  Forall (fun e => before_dump e = true) (snd (Run.main w i)).
Proof.
  destruct i as [o | c]; cbn [Run.accepted Run.main]; intros Hacc.
  - assert (Hcerr : Forall (fun e => before_dump e = true)
                           (snd (Finder.get_input_file o))).
    { eapply Forall_impl; [| apply FinderFacts.get_input_file_trace].
      now intros e [m ->]. }
    destruct (Z.eq_dec (Finder.help_count o) 1) as [Hh | Hh].
    { rewrite FinderFacts.main_help by exact Hh. repeat constructor. }
    destruct (Z.eq_dec (Finder.selection_count o) 1) as [Hs | Hs].
    2:{ rewrite FinderFacts.main_rejects_selection by assumption. cbn [snd].
        apply Forall_app. split; [exact Hcerr | repeat constructor]. }
    destruct (FinderRun.known_algorithm (Finder.alg o)) eqn:Hk.
    { unfold FinderRun.accepted in Hacc. rewrite Hs, Hk in Hacc.
      destruct (Finder.help_count o =? 1) eqn:E; zbool;
        [contradiction | discriminate]. }
    rewrite FinderFacts.main_unknown_algorithm by assumption. cbn [snd].
    repeat (apply Forall_app; split);
      [exact Hcerr | apply read_input_events_before_dump | repeat constructor].
  - eapply Forall_impl; [| apply inclusive_rejected_prints; exact Hacc].
    intros e. destruct e; try discriminate; reflexivity.
Qed.

(** ** One jet definition for a whole run *)

Lemma run_body_jet_definition (w : World) (i : invocation) (trial ievt : Z)
    (event : Event) :
  jet_definitions (snd (Run.body w i trial ievt event))
  = [run_jet_definition i].
Proof.
  unfold jet_definitions.
  destruct i as [o | c]; cbn [Run.body run_jet_definition];
    unfold FinderRun.body, InclusiveRun.body.
  - rewrite finder_body_trace.
    change (Cluster ?t ?j ?jd ?ev :: ?x) with ([Cluster t j jd ev] ++ x).
    rewrite !collect_app. unfold collect at 1. cbn [flat_map app]. f_equal.
    replace (collect _ (match Finder.ptmin_option o, Finder.dijmax_option o with
                        | None, Some dijmax => [Cout (MsgDijmax dijmax)]
                        | _, _ => []
                        end)) with (@nil JetDefinition)
      by (destruct (Finder.ptmin_option o), (Finder.dijmax_option o);
          reflexivity).
    destruct (Finder.is_set (Finder.dump_option o) && (trial =? 0));
      [| reflexivity].
    destruct (Finder.debug_clusterseq_option o); reflexivity.
  - rewrite inclusive_body_trace.
    destruct (Inclusive.dump (InclusiveRun.parsed c)); reflexivity.
Qed.

Lemma jet_definitions_of_run (w : World) (i : invocation) :
  Forall (fun jd => jd = run_jet_definition i)
         (jet_definitions (snd (Run.main w i)))
  /\ (Run.accepted i = true \/ jet_definitions (snd (Run.main w i)) = []).
Proof.
  assert (Hrej : Run.accepted i = false ->
                 jet_definitions (snd (Run.main w i)) = []).
  { intros Hacc. unfold jet_definitions.
    apply (collect_none _ before_dump); [| now apply rejected_before_dump].
    intros e He. destruct e; try discriminate; reflexivity. }
  destruct (Run.accepted i) eqn:Hacc;
    [split; [| now left]
    | rewrite Hrej by reflexivity; split; [constructor | now right]].
  unfold jet_definitions. rewrite collect_main by exact Hacc.
  rewrite (collect_none _ setup_effect (Run.setup w i));
    [| intros e He; destruct e as [m | | | | | | |];
       try discriminate; try reflexivity;
       destruct m; try discriminate; reflexivity
     | exact (setup_effects w i Hacc)].
  cbn [app]. apply Forall_app. split; [| repeat constructor].
  apply Forall_flat_map. intros t. cbn [app]. rewrite app_nil_r.
  apply Forall_flat_map. intros ievt. unfold event_trace.
  fold (jet_definitions
          (snd (Run.body w i t ievt
                         (nth (Z.to_nat ievt) (Run.events w i) [])))).
  rewrite run_body_jet_definition. repeat constructor.
Qed.

(** Every clustering call of a run, in every trial and for every event,
    uses one and the same jet definition: the algorithm and power resolved
    from the command line, its radius and its strategy.  A run that is
    not accepted clusters nothing. *)
Theorem one_jet_definition_per_run (w : World) (i : invocation) :
  Forall (fun jd => jd = run_jet_definition i)
         (jet_definitions (snd (Run.main w i)))
  /\ (Run.accepted i = true \/ jet_definitions (snd (Run.main w i)) = []).
Proof. apply jet_definitions_of_run. Qed.

(** ** The jet dump *)

Lemma flat_map_if {A B : Type} (c : bool) (f : A -> B) (l : list A) :
  flat_map (fun x => if c then [f x] else []) l = if c then map f l else [].
Proof. destruct c; [apply flat_map_singleton | apply flat_map_nil]. Qed.

Lemma flat_map_after_first {B : Type} (G : Z -> list B) (len : nat) :
  forall start,
    0 < start ->
    flat_map (fun t => if t =? 0 then G t else []) (iota start len) = [].
Proof.
  induction len as [| len IH]; intros start Hs; [reflexivity |].
  cbn [iota flat_map]. rewrite IH by lia.
  destruct (start =? 0) eqn:E; zbool; [lia | reflexivity].
Qed.

Lemma flat_map_first_trial {B : Type} (G : Z -> list B) (trials : Z) :
  flat_map (fun t => if t =? 0 then G t else []) (range 0 trials)
  = if 0 <? trials then G 0 else [].
Proof.
  destruct (0 <? trials) eqn:E; zbool.
  - rewrite range_cons by exact E. cbn [flat_map Z.eqb].
    unfold range. rewrite flat_map_after_first by lia. apply app_nil_r.
  - now rewrite range_empty by lia.
Qed.

Lemma finder_body_jet_dumps (w : World) (o : Finder.options)
    (trial ievt : Z) (event : Event) :
  jet_dumps (snd (FinderRun.body w o trial ievt event))
  = if Finder.is_set (Finder.dump_option o) && (trial =? 0)
    then [(trial, ievt + 1,
           finder_final_jets
             w o (new_ClusterSequence w event (run_jet_definition (finder o))))]
    else [].
Proof.
  unfold jet_dumps, FinderRun.body. rewrite finder_body_trace.
  change (Cluster ?t ?j ?jd ?ev :: ?x) with ([Cluster t j jd ev] ++ x).
  rewrite !collect_app. unfold collect at 1. cbn [flat_map app].
  replace (collect _ (match Finder.ptmin_option o, Finder.dijmax_option o with
                      | None, Some dijmax => [Cout (MsgDijmax dijmax)]
                      | _, _ => []
                      end)) with (@nil (Z * Z * list PseudoJet))
    by (destruct (Finder.ptmin_option o), (Finder.dijmax_option o);
        reflexivity).
  destruct (Finder.is_set (Finder.dump_option o) && (trial =? 0));
    [| reflexivity].
  destruct (Finder.debug_clusterseq_option o); reflexivity.
Qed.

(** With a dump target, an accepted finder run with at least one trial
    writes one jet record for each event it clusters, in the order of the
    store, numbered from 1 (the event of index [ievt] is event [ievt + 1]),
    holding the jets of the selection in force, sorted; all in trial 0.
    Without a dump target, or without a trial, it writes none. *)
Theorem finder_jet_dump (w : World) (o : Finder.options) :
  FinderRun.accepted o = true ->
  jet_dumps (snd (Finder.main w o))
  = if Finder.is_set (Finder.dump_option o) && (0 <? Finder.trials o)
    then map (fun ie =>
                (0, fst ie + 1,
                 finder_final_jets
                   w o (new_ClusterSequence w (snd ie)
                                            (run_jet_definition (finder o)))))
             (indexed_from (size_t_of_int (Finder.skip_events o))
                           (FinderRun.events w o))
    else [].
Proof.
  intros Hacc. unfold jet_dumps.
  change (Finder.main w o) with (Run.main w (finder o)).
  rewrite collect_main by exact Hacc.
  rewrite (collect_none _ setup_effect (Run.setup w (finder o)));
    [| intros e He; destruct e as [m | | | | | | |];
       try discriminate; try reflexivity
     | exact (setup_effects w (finder o) Hacc)].
  unfold collect at 2, report. cbn [flat_map app]. rewrite app_nil_r.
  cbn [Run.events Run.body Run.first_event Run.trials].
  rewrite (flat_map_ext
             _ (fun t =>
                  if t =? 0
                  then if Finder.is_set (Finder.dump_option o)
                       then map (fun ie =>
                                   (0, fst ie + 1,
                                    finder_final_jets
                                      w o (new_ClusterSequence
                                             w (snd ie)
                                             (run_jet_definition (finder o)))))
                                (indexed_from
                                   (size_t_of_int (Finder.skip_events o))
                                   (FinderRun.events w o))
                       else []
                  else [])).
  - rewrite flat_map_first_trial.
    destruct (Finder.is_set (Finder.dump_option o));
      destruct (0 <? Finder.trials o); reflexivity.
  - intros t. cbn [app]. rewrite app_nil_r. unfold event_trace.
    rewrite (flat_map_ext
               _ (fun ievt =>
                    if Finder.is_set (Finder.dump_option o) && (t =? 0)
                    then [(t, ievt + 1,
                           finder_final_jets
                             w o (new_ClusterSequence
                                    w (nth (Z.to_nat ievt)
                                           (FinderRun.events w o) [])
                                    (run_jet_definition (finder o))))]
                    else []))
      by (intros ievt; apply finder_body_jet_dumps).
    rewrite flat_map_if. unfold indexed_from. rewrite map_map. cbn [fst snd].
    destruct (t =? 0) eqn:E; zbool;
      [subst t; now rewrite andb_true_r | now rewrite andb_false_r].
Qed.

Lemma finder_jet_dump_witness :
  let w := Sample.two_event_world in
  let o := Sample.finder_njets in
  map (fun r => (fst (fst r), snd (fst r))) (jet_dumps (snd (Finder.main w o)))
  = [(0, 1); (0, 2)].
Proof.
  cbv zeta.
  rewrite (finder_jet_dump Sample.two_event_world Sample.finder_njets eq_refl).
  reflexivity.
Defined.

Lemma inclusive_body_jet_dumps (w : World) (c : Inclusive.command_line)
    (trial ievt : Z) (event : Event) :
  jet_dumps (snd (InclusiveRun.body w c trial ievt event))
  = if Inclusive.dump (InclusiveRun.parsed c)
    then [(trial, ievt + 1,
           sorted_by_pt
             w (inclusive_jets
                  w (new_ClusterSequence
                       w event (run_jet_definition (inclusive c)))
                  (Inclusive.ptmin (InclusiveRun.parsed c))))]
    else [].
Proof.
  unfold jet_dumps, InclusiveRun.body. rewrite inclusive_body_trace.
  destruct (Inclusive.dump (InclusiveRun.parsed c)); reflexivity.
Qed.

(** With a dump target, an accepted run of the inclusive harness writes
    the jet record of every event of the store in every trial: for each
    trial, in order, one record per event, numbered from 1, holding the
    sorted inclusive jets above [ptmin]; that is [trials * n] records.
    Without a dump target it writes none. *)
Theorem inclusive_jet_dump (w : World) (c : Inclusive.command_line) :
  InclusiveRun.accepted c = true ->
  let v := InclusiveRun.parsed c in
  jet_dumps (snd (Inclusive.main w c))
  = (if Inclusive.dump v
     then flat_map
            (fun t =>
               map (fun ie =>
                      (t, fst ie + 1,
                       sorted_by_pt
                         w (inclusive_jets
                              w (new_ClusterSequence
                                   w (snd ie) (run_jet_definition (inclusive c)))
                              (Inclusive.ptmin v))))
                   (indexed_from 0 (InclusiveRun.events w c)))
            (range 0 (Inclusive.trials v))
     else [])
  /\ List.length (jet_dumps (snd (Inclusive.main w c)))
     = (if Inclusive.dump v
        then (Z.to_nat (Inclusive.trials v)
              * List.length (InclusiveRun.events w c))%nat
        else 0%nat).
Proof.
  intros Hacc. cbv zeta.
  assert (H : jet_dumps (snd (Inclusive.main w c))
              = if Inclusive.dump (InclusiveRun.parsed c)
                then flat_map
                       (fun t =>
                          map (fun ie =>
                                 (t, fst ie + 1,
                                  sorted_by_pt
                                    w (inclusive_jets
                                         w (new_ClusterSequence
                                              w (snd ie)
                                              (run_jet_definition (inclusive c)))
                                         (Inclusive.ptmin
                                            (InclusiveRun.parsed c)))))
                              (indexed_from 0 (InclusiveRun.events w c)))
                       (range 0 (Inclusive.trials (InclusiveRun.parsed c)))
                else []).
  { unfold jet_dumps.
    change (Inclusive.main w c) with (Run.main w (inclusive c)).
    rewrite collect_main by exact Hacc.
    rewrite (collect_none _ setup_effect (Run.setup w (inclusive c)));
      [| intros e He; destruct e as [m | | | | | | |];
         try discriminate; try reflexivity
       | exact (setup_effects w (inclusive c) Hacc)].
    unfold collect at 2, report. cbn [flat_map app]. rewrite app_nil_r.
    cbn [Run.events Run.body Run.first_event Run.trials].
    rewrite (flat_map_ext
               _ (fun t =>
                    if Inclusive.dump (InclusiveRun.parsed c)
                    then map (fun ie =>
                                (t, fst ie + 1,
                                 sorted_by_pt
                                   w (inclusive_jets
                                        w (new_ClusterSequence
                                             w (snd ie)
                                             (run_jet_definition (inclusive c)))
                                        (Inclusive.ptmin
                                           (InclusiveRun.parsed c)))))
                             (indexed_from 0 (InclusiveRun.events w c))
                    else [])).
    - destruct (Inclusive.dump (InclusiveRun.parsed c));
        [reflexivity | apply flat_map_nil].
    - intros t. cbn [app]. rewrite app_nil_r. unfold event_trace.
      rewrite (flat_map_ext
                 _ (fun ievt =>
                      if Inclusive.dump (InclusiveRun.parsed c)
                      then [(t, ievt + 1,
                             sorted_by_pt
                               w (inclusive_jets
                                    w (new_ClusterSequence
                                         w (nth (Z.to_nat ievt)
                                                (InclusiveRun.events w c) [])
                                         (run_jet_definition (inclusive c)))
                                    (Inclusive.ptmin (InclusiveRun.parsed c))))]
                      else []))
        by (intros ievt; apply inclusive_body_jet_dumps).
      rewrite flat_map_if. unfold indexed_from. rewrite map_map.
      reflexivity. }
  split; [exact H |].
  rewrite H. clear H.
  destruct (Inclusive.dump (InclusiveRun.parsed c)); [| reflexivity].
  generalize (range_length 0 (Inclusive.trials (InclusiveRun.parsed c))).
  rewrite Z.sub_0_r. intros <-.
  induction (range 0 (Inclusive.trials (InclusiveRun.parsed c)))
    as [| t l IH]; [reflexivity |].
  cbn [flat_map List.length]. rewrite length_app, IH, length_map.
  unfold indexed_from. rewrite length_map, range_length, Z.sub_0_r, Nat2Z.id.
  reflexivity.
Qed.

Lemma inclusive_jet_dump_witness :
  let w := Sample.two_event_world in
  let c := Sample.inclusive_dump in
  map (fun r => (fst (fst r), snd (fst r)))
      (jet_dumps (snd (Inclusive.main w c)))
  = [(0, 1); (0, 2); (1, 1); (1, 2)]
  /\ List.length (jet_dumps (snd (Inclusive.main w c))) = 4%nat.
Proof.
  cbv zeta.
  destruct (inclusive_jet_dump Sample.two_event_world Sample.inclusive_dump
                               eq_refl) as [H1 H2].
  split; [rewrite H1; reflexivity | exact H2].
Defined.

(** ** The input source and the dump file *)

Lemma collect_main_no_body {A : Type} (g : effect -> list A) (w : World)
    (i : invocation) :
  Run.accepted i = true ->
  (forall e, body_effect e = true -> g e = []) ->
  collect g (snd (Run.main w i))
  = collect g (Run.setup w i)
    ++ flat_map (fun t => g (Cout (MsgTrial t))
                          ++ g (Cout (MsgElapsed (us_elapsed w t))))
                (range 0 (Run.trials i))
    ++ collect g (report (Run.events w i) (Run.trials i) (Run.result w i)).
Proof.
  intros Hacc Hb. rewrite collect_main by exact Hacc.
  f_equal. f_equal. apply flat_map_ext. intros t. f_equal.
  rewrite (flat_map_ext _ (fun _ => @nil A)); [now rewrite flat_map_nil |].
  intros ievt. unfold event_trace.
  apply (collect_none g body_effect _ Hb), run_body_effects.
Qed.

Lemma opened_read_input_events (fs : string -> ReaderAscii) (fname : string)
    (maxevents : Z) :
  opened (snd (read_input_events fs fname maxevents)) = [fname].
Proof.
  destruct (read_input_events_spec fs fname maxevents) as [k [H _]].
  rewrite H. cbn [snd]. unfold opened, collect. cbn [flat_map app]. f_equal.
  rewrite flat_map_app. cbn [flat_map app]. rewrite app_nil_r.
  clear H. induction k as [| k IH]; simpl; auto.
Qed.

Lemma opened_cerr (tr : trace) :
  Forall (fun e => exists m, e = Cerr m) tr -> opened tr = [].
Proof.
  intros H. apply (collect_none _ print_effect).
  - intros e He. destruct e; try discriminate; reflexivity.
  - eapply Forall_impl; [| exact H]. now intros e [m ->].
Qed.

Lemma opened_fopen (tr : trace) :
  Forall (fun e => exists path, e = Fopen path) tr -> opened tr = [].
Proof.
  induction 1 as [| e tr [m ->] _ IH]; [reflexivity |].
  unfold opened, collect in *. cbn [flat_map]. now rewrite IH.
Qed.

(** The finder opens its input source once, after the help and selection
    checks, and on the one file name given; with no file name or with
    several it opens the empty name, the names given being left alone.
    When it shows the help or rejects the selection flags it opens
    nothing. *)
Theorem finder_input_source (w : World) (o : Finder.options) :
  opened (snd (Finder.main w o))
  = if (Finder.help_count o =? 1) || negb (Finder.selection_count o =? 1)
    then []
    else [match Finder.non_option_args o with
          | [f] => f
          | _ => ""%string
          end].
Proof.
  fold (FinderRun.input_file o).
  pose proof (opened_cerr _ (FinderFacts.get_input_file_trace o)) as Hcerr.
  destruct (Finder.help_count o =? 1) eqn:Eh; zbool; cbn [orb].
  { now rewrite FinderFacts.main_help by exact Eh. }
  destruct (Finder.selection_count o =? 1) eqn:Es; zbool; cbn [negb].
  2:{ rewrite FinderFacts.main_rejects_selection by assumption. cbn [snd].
      unfold opened in *. now rewrite collect_app, Hcerr. }
  destruct (FinderRun.known_algorithm (Finder.alg o)) eqn:Hk.
  2:{ rewrite FinderFacts.main_unknown_algorithm by assumption. cbn [snd].
      pose proof (opened_read_input_events
                    (fs w) (FinderRun.input_file o) (Finder.maxevents o)) as Hr.
      unfold opened in *. now rewrite !collect_app, Hcerr, Hr. }
  assert (Hacc : Run.accepted (finder o) = true).
  { cbn [Run.accepted]. unfold FinderRun.accepted. rewrite Es, Hk.
    destruct (Finder.help_count o =? 1) eqn:E; zbool;
      [contradiction | reflexivity]. }
  change (Finder.main w o) with (Run.main w (finder o)).
  unfold opened. rewrite collect_main_no_body; try exact Hacc.
  2:{ intros e He. destruct e as [m | | | | | | |];
        try discriminate; reflexivity. }
  rewrite (flat_map_ext _ (fun _ => @nil string)) by reflexivity.
  rewrite flat_map_nil. unfold collect at 2, report. cbn [flat_map app].
  rewrite app_nil_r. cbn [Run.setup]. unfold FinderRun.setup.
  rewrite !collect_app.
  fold (opened (snd (Finder.get_input_file o))).
  fold (opened (snd (read_input_events (fs w) (FinderRun.input_file o)
                                       (Finder.maxevents o)))).
  fold (opened (snd (Finder.open_dump_file o))).
  rewrite Hcerr, opened_read_input_events.
  rewrite (opened_fopen _ (FinderFacts.open_dump_file_trace o)).
  reflexivity.
Qed.

Lemma fopens_open_dump (w : World) (i : invocation) :
  Run.accepted i = true -> fopens (Run.setup w i) = run_dump_path i.
Proof.
  intros Hacc.
  assert (Hread : forall f m, fopens (snd (read_input_events (fs w) f m)) = []).
  { intros f m. apply (collect_none _ before_dump).
    - intros e He. destruct e; try discriminate; reflexivity.
    - apply read_input_events_before_dump. }
  destruct i as [o | c]; cbn [Run.setup run_dump_path];
    unfold FinderRun.setup, InclusiveRun.setup, fopens in *;
    rewrite !collect_app, Hread.
  - rewrite (collect_none _ print_effect (snd (Finder.get_input_file o)));
      [| intros e He; destruct e; try discriminate; reflexivity
       | eapply Forall_impl; [| apply FinderFacts.get_input_file_trace];
         now intros e [m ->]].
    unfold Finder.open_dump_file, open_dump.
    destruct (Finder.dump_option o) as [path |]; [| reflexivity].
    destruct (String.eqb path "-"); reflexivity.
  - apply InclusiveFacts.accepted_first_stop in Hacc. destruct Hacc as [Hs _].
    pose proof (InclusiveFacts.parse_options_stop
                  (Inclusive.getopt_items c) Inclusive.defaults) as Hp.
    rewrite Hs in Hp. destruct Hp as [v' Hp]. rewrite Hp. cbn [snd].
    unfold Inclusive.open_dump_file, open_dump.
    destruct (Inclusive.dump (InclusiveRun.parsed c)); [| reflexivity].
    destruct (String.eqb (Inclusive.dump_file (InclusiveRun.parsed c)) "-");
      reflexivity.
Qed.

(** The dump file is opened for writing (and so created or emptied) by
    accepted runs only, once, before the first trial, and only when the
    dump target is not ["-"]: a run that ends in the help, in a
    configuration error or in [exit] for any other reason leaves it
    untouched. *)
Theorem dump_file_is_opened_by_accepted_runs (w : World) (i : invocation) :
  fopens (snd (Run.main w i))
  = if Run.accepted i then run_dump_path i else [].
Proof.
  destruct (Run.accepted i) eqn:Hacc.
  - unfold fopens. rewrite collect_main_no_body; try exact Hacc.
    2:{ intros e He. destruct e as [m | | | | | | |];
          try discriminate; reflexivity. }
    rewrite (flat_map_ext _ (fun _ => @nil string)) by reflexivity.
    rewrite flat_map_nil. unfold collect at 2, report. cbn [flat_map app].
    rewrite app_nil_r. apply (fopens_open_dump w i Hacc).
  - apply (collect_none _ before_dump).
    + intros e He. destruct e; try discriminate; reflexivity.
    + now apply rejected_before_dump.
Qed.

(** ** Options of the finder that change nothing *)

(** With [--algorithm AntiKt], [CA], [Kt] or [Durham] the value of
    [--power] is overridden: whatever it is, the run does and prints the
    same. *)
Theorem algorithm_name_overrides_power
    (w : World) (o : Finder.options) (p : float) :
  Finder.alg o = "AntiKt"%string \/ Finder.alg o = "CA"%string
  \/ Finder.alg o = "Kt"%string \/ Finder.alg o = "Durham"%string ->
  Finder.main w (with_power o p) = Finder.main w o.
Proof.
  destruct o as [h me se tr st pw al r pt dj nj du dbg args].
  unfold with_power. cbn. intros [-> | [-> | [-> | ->]]]; reflexivity.
Qed.

Lemma algorithm_name_overrides_power_witness :
  let named := Finder.mkOptions
                 0 (-1) 0 1 "Best" 7 "Kt" default_R
                 (Some 0.5%float) None None None false
                 ["events.hepmc3"%string] in
  Finder.main Sample.two_event_world (with_power named 3)
  = Finder.main Sample.two_event_world named.
Proof.
  cbv zeta. apply algorithm_name_overrides_power. right. right. left.
  reflexivity.
Defined.

(** The help is shown only when the help switch is given exactly once:
    given twice or more it is ignored, the run being the one of the same
    command line without it. *)
Theorem repeated_help_is_ignored (w : World) (o : Finder.options) :
  Finder.help_count o <> 1 ->
  Finder.main w o = Finder.main w (with_help_count o 0).
Proof.
  destruct o as [h me se tr st pw al r pt dj nj du dbg args].
  unfold with_help_count. cbn [Finder.help_count Finder.maxevents
    Finder.skip_events Finder.trials Finder.mystrategy Finder.power
    Finder.alg Finder.R Finder.ptmin_option Finder.dijmax_option
    Finder.njets_option Finder.dump_option Finder.debug_clusterseq_option
    Finder.non_option_args].
  intros Hh. unfold Finder.main, Finder.show_help.
  cbn [Finder.help_count].
  destruct (h =? 1) eqn:E; zbool; [contradiction | reflexivity].
Qed.

Lemma repeated_help_is_ignored_witness :
  let o := with_help_count Sample.finder_ptmin 2 in
  Finder.help_count o = 2
  /\ Finder.main Sample.two_event_world o
     = Finder.main Sample.two_event_world Sample.finder_ptmin.
Proof.
  cbv zeta. split; [reflexivity |].
  apply (repeated_help_is_ignored
           Sample.two_event_world (with_help_count Sample.finder_ptmin 2)).
  vm_compute. discriminate.
Defined.

(** Without [--dump] the switch [--debug-clusterseq] has no effect: the
    cluster-sequence dump is nested in the jet dump. *)
Theorem debug_clusterseq_needs_dump
    (w : World) (o : Finder.options) (b : bool) :
  Finder.dump_option o = None ->
  Finder.main w (with_debug_clusterseq o b) = Finder.main w o.
Proof.
  destruct o as [h me se tr st pw al r pt dj nj du dbg args].
  unfold with_debug_clusterseq. cbn. intros ->. reflexivity.
Qed.

Lemma debug_clusterseq_needs_dump_witness :
  Finder.main Sample.two_event_world
              (with_debug_clusterseq Sample.finder_ptmin true)
  = Finder.main Sample.two_event_world Sample.finder_ptmin.
Proof.
  apply debug_clusterseq_needs_dump. reflexivity.
Defined.

(** No value of [--strategy] is rejected: the way a finder run ends does
    not depend on it, and every name other than [N2Plain] and [N2Tiled]
    clusters with the strategy [Best]. *)
Theorem strategy_is_never_rejected
    (w : World) (o : Finder.options) (s : string) :
  fst (Finder.main w (with_strategy o s)) = fst (Finder.main w o)
  /\ (s = "N2Plain"%string \/ s = "N2Tiled"%string
      \/ Forall (fun jd => strategy_in jd = Best)
                (jet_definitions (snd (Finder.main w (with_strategy o s))))).
Proof.
  split.
  - destruct (Z.eq_dec (Finder.help_count o) 1) as [Hh | Hh].
    { rewrite (FinderFacts.main_help w (with_strategy o s) Hh).
      now rewrite FinderFacts.main_help by exact Hh. }
    destruct (Z.eq_dec (Finder.selection_count o) 1) as [Hs | Hs].
    2:{ rewrite (FinderFacts.main_rejects_selection
                   w (with_strategy o s) Hh Hs).
        now rewrite FinderFacts.main_rejects_selection by assumption. }
    destruct (FinderRun.known_algorithm (Finder.alg o)) eqn:Hk.
    2:{ rewrite (FinderFacts.main_unknown_algorithm
                   w (with_strategy o s) Hh Hs Hk).
        now rewrite FinderFacts.main_unknown_algorithm by assumption. }
    assert (Hacc : FinderRun.accepted o = true).
    { unfold FinderRun.accepted. rewrite Hs, Hk.
      destruct (Finder.help_count o =? 1) eqn:E; zbool;
        [contradiction | reflexivity]. }
    rewrite (FinderFacts.finder_main_accepted w (with_strategy o s) Hacc).
    now rewrite FinderFacts.finder_main_accepted by exact Hacc.
  - destruct (String.eqb s "N2Plain") eqn:E1;
      [left; now apply String.eqb_eq |].
    destruct (String.eqb s "N2Tiled") eqn:E2;
      [right; left; now apply String.eqb_eq |].
    right. right.
    eapply Forall_impl;
      [| exact (proj1 (jet_definitions_of_run w (finder (with_strategy o s))))].
    intros jd ->. cbn [run_jet_definition].
    unfold with_strategy at 1. cbn [Finder.mystrategy].
    unfold strategy_of. rewrite E1, E2.
    unfold Finder.jet_definition.
    destruct (fst (FinderRun.resolved (with_strategy o s))); reflexivity.
Qed.

(** ** More on loading the event store *)

Lemma reads_cons_read (tr : trace) : reads (ReadEvent :: tr) = S (reads tr).
Proof. reflexivity. Qed.

Lemma read_loop_reads (maxevents : Z) (p : list (option GenEvent)) :
  forall fuel events_parsed events,
    (List.length p < fuel)%nat ->
    reads (snd (read_loop fuel maxevents (mkReader false p)
                          events_parsed events))
    = if (0 <=? maxevents)
         && (maxevents - events_parsed
             <=? Z.of_nat (List.length (decodable p)))
      then Z.to_nat (maxevents - events_parsed)
      else S (List.length (decodable p)).
Proof.
  induction p as [| o p IH]; intros fuel events_parsed events Hfuel;
    (destruct fuel as [| fuel]; [simpl in Hfuel; lia |]);
    cbn [read_loop failed negb];
    destruct ((0 <=? maxevents) && (maxevents <=? events_parsed)) eqn:Hstop.
  - zbool. unfold ret, reads. cbn [snd filter List.length decodable].
    replace (0 <=? maxevents) with true by (symmetry; apply Z.leb_le; lia).
    replace (maxevents - events_parsed <=? Z.of_nat 0) with true
      by (symmetry; apply Z.leb_le; lia).
    cbn [andb]. lia.
  - rewrite bind_emit. unfold read_event. cbn [pending failed snd decodable
      List.length]. unfold ret. cbn [snd]. rewrite reads_cons_read.
    unfold reads at 1. cbn [filter List.length].
    destruct (0 <=? maxevents) eqn:Hb; cbn [andb] in *; [| reflexivity].
    zbool.
    replace (maxevents - events_parsed <=? Z.of_nat 0) with false
      by (symmetry; apply Z.leb_gt; lia).
    reflexivity.
  - zbool. unfold ret. unfold reads at 1. cbn [snd filter List.length].
    replace (0 <=? maxevents) with true by (symmetry; apply Z.leb_le; lia).
    replace (maxevents - events_parsed
             <=? Z.of_nat (List.length (decodable (o :: p)))) with true
      by (symmetry; apply Z.leb_le; lia).
    cbn [andb]. lia.
  - rewrite bind_emit. destruct o as [evt |];
      unfold read_event; cbn [pending failed snd decodable List.length].
    + rewrite reads_cons_read, IH by (simpl in Hfuel; lia).
      destruct (0 <=? maxevents) eqn:Hb; cbn [andb] in *; [| reflexivity].
      zbool.
      destruct (maxevents - (events_parsed + 1)
                <=? Z.of_nat (List.length (decodable p))) eqn:E1;
        destruct (maxevents - events_parsed
                  <=? Z.of_nat (S (List.length (decodable p)))) eqn:E2;
        zbool; lia.
    + unfold ret. cbn [snd]. rewrite reads_cons_read.
      unfold reads at 1. cbn [filter List.length].
      destruct (0 <=? maxevents) eqn:Hb; cbn [andb] in *; [| reflexivity].
      zbool.
      replace (maxevents - events_parsed <=? Z.of_nat 0) with false
        by (symmetry; apply Z.leb_gt; lia).
      reflexivity.
Qed.

Lemma read_loop_failed (fuel : nat) (maxevents : Z)
    (p : list (option GenEvent)) (events_parsed : Z) (events : list Event) :
  read_loop (S fuel) maxevents (mkReader true p) events_parsed events
  = (Val (events_parsed, events), []).
Proof. reflexivity. Qed.

(** The loader calls [read_event] once for each event it returns, and once
    more when it is the end of the data or a decoding failure that stops
    it, not the bound; it calls it not at all on a reader that failed
    when it was opened. *)
Theorem read_event_calls (fs : string -> ReaderAscii) (fname : string)
    (maxevents : Z) :
  reads (snd (read_input_events fs fname maxevents))
  = if failed (fs fname) then 0%nat
    else if (0 <=? maxevents)
            && (maxevents <=? Z.of_nat (List.length (decoded (fs fname))))
         then Z.to_nat maxevents
         else S (List.length (decoded (fs fname))).
Proof.
  unfold read_input_events, decoded.
  destruct (fs fname) as [f p]. cbn [pending failed].
  rewrite bind_emit. cbn [snd]. unfold reads at 1. cbn [filter].
  destruct f.
  - rewrite read_loop_failed, bind_val, bind_emit. reflexivity.
  - pose proof (read_loop_reads maxevents p (S (List.length p)) 0 []
                                (Nat.lt_succ_diag_r _)) as Hr.
    rewrite Z.sub_0_r in Hr.
    destruct (read_loop_spec maxevents p (S (List.length p)) false 0 [])
      as [k [Hk _]]; [lia |].
    cbv zeta in Hk. rewrite Hk in Hr |- *. cbn [snd] in Hr.
    rewrite bind_val, bind_emit. cbn [snd fst ret].
    rewrite filter_app, length_app. fold (reads (repeat ReadEvent k)).
    rewrite Hr. unfold ret. cbn [snd filter List.length]. lia.
Qed.

(** The number of events the loader reports is the number it returns:
    the first [n] of the events the source decodes for a bound [n >= 0],
    all of them for a negative bound. *)
Theorem read_input_events_count (fs : string -> ReaderAscii) (fname : string) :
  (forall maxevents,
      exists events tr,
        read_input_events fs fname maxevents = (Val events, tr)
        /\ In (Cout (MsgRead (Z.of_nat (List.length events)) fname)) tr)
  /\ (forall n : nat,
         exists events tr,
           read_input_events fs fname (Z.of_nat n) = (Val events, tr)
           /\ List.length events
              = Nat.min n (List.length (decoded (fs fname))))
  /\ (forall b : positive,
         exists events tr,
           read_input_events fs fname (Zneg b) = (Val events, tr)
           /\ List.length events = List.length (decoded (fs fname))).
Proof.
  split; [| split].
  - intros maxevents.
    destruct (read_input_events_spec fs fname maxevents) as [k [H _]].
    rewrite H. eexists. eexists. split; [reflexivity |].
    rewrite length_map. right. apply in_or_app. right. now left.
  - intros n.
    destruct (read_input_events_spec fs fname (Z.of_nat n)) as [k [H _]].
    rewrite H. eexists. eexists. split; [reflexivity |].
    rewrite length_map. unfold bounded.
    replace (0 <=? Z.of_nat n) with true by (symmetry; apply Z.leb_le; lia).
    now rewrite Nat2Z.id, length_firstn.
  - intros b.
    destruct (read_input_events_spec fs fname (Zneg b)) as [k [H _]].
    rewrite H. eexists. eexists. split; [reflexivity |].
    now rewrite length_map.
Qed.

(** A bound only cuts the store short: the events loaded with a bound
    [n] are the first [n] of those loaded without a bound. *)
Theorem read_input_events_prefix (fs : string -> ReaderAscii) (fname : string)
    (n : nat) :
  exists all,
    fst (read_input_events fs fname (-1)) = Val all
    /\ fst (read_input_events fs fname (Z.of_nat n)) = Val (firstn n all).
Proof.
  rewrite !read_input_events_value. eexists. split; [reflexivity |].
  unfold bounded.
  replace (0 <=? Z.of_nat n) with true by (symmetry; apply Z.leb_le; lia).
  cbn [Z.leb Z.compare]. now rewrite Nat2Z.id, firstn_map.
Qed.

(** A source that cannot be opened gives an empty store, without a
    [read_event] call and without an error: zero events are reported and
    the caller goes on. *)
Theorem read_input_events_unreadable_source
    (fs : string -> ReaderAscii) (fname : string) (maxevents : Z) :
  failed (fs fname) = true ->
  read_input_events fs fname maxevents
  = (Val [], [OpenReader fname; Cout (MsgRead 0 fname)]).
Proof.
  intros Hf. unfold read_input_events.
  destruct (fs fname) as [f p]. cbn [failed pending] in *. subst f.
  rewrite bind_emit, read_loop_failed, bind_val, bind_emit. reflexivity.
Qed.

Lemma read_input_events_unreadable_source_witness :
  read_input_events (fs Sample.two_event_world) "missing.hepmc3" (-1)
  = (Val [], [OpenReader "missing.hepmc3";
              Cout (MsgRead 0 "missing.hepmc3")]).
Proof.
  apply read_input_events_unreadable_source. reflexivity.
Defined.

(** ** The lowest time *)












(** ** The options of fastjet-inclusive *)

Lemma parse_options_app (a b : list Inclusive.getopt_item) :
  forall v,
    Inclusive.parse_options (a ++ b) v
    = bind (Inclusive.parse_options a v) (Inclusive.parse_options b).
Proof.
  induction a as [| item a IH]; intros v; cbn [app Inclusive.parse_options].
  - now rewrite bind_ret_l.
  - destruct item; try apply IH; reflexivity.
Qed.

Lemma parse_options_overridden (i j : Inclusive.getopt_item)
    (b c : list Inclusive.getopt_item) :
  same_option i j = true ->
  ~ In Inclusive.opt_h b ->
  forall v,
    Inclusive.parse_options (i :: b ++ j :: c) v
    = Inclusive.parse_options (b ++ j :: c) v.
Proof.
  intros H. induction b as [| k b IH]; intros Hh v.
  - destruct i, j; try discriminate; reflexivity.
  - assert (Hb : ~ In Inclusive.opt_h b) by (intros F; apply Hh; now right).
    specialize (IH Hb).
    destruct i; try discriminate; destruct k;
      try (exfalso; apply Hh; now left);
      cbn [app Inclusive.parse_options];
      first [ reflexivity
            | etransitivity; [| apply IH]; reflexivity ].
Qed.

Lemma last_cons {A : Type} (l : list A) :
  forall x d, last (x :: l) d = last l x.
Proof.
  induction l as [| y l IH]; intros x d; [reflexivity |].
  change (last (x :: y :: l) d) with (last (y :: l) d).
  now rewrite !IH.
Qed.

Lemma parse_options_help (a b : list Inclusive.getopt_item) :
  InclusiveRun.first_stop a = None ->
  forall v,
    Inclusive.parse_options (a ++ Inclusive.opt_h :: b) v
    = (Exited (-1),
       [Cout (MsgUsageHelp (given_maxevents a (Inclusive.maxevents v))
                           (given_trials a (Inclusive.trials v)))]).
Proof.
  unfold given_maxevents, given_trials.
  induction a as [| item a IH]; intros Hs v; [reflexivity |].
  destruct item; cbn [InclusiveRun.first_stop] in Hs; try discriminate;
    cbn [app Inclusive.parse_options flat_map]; rewrite (IH Hs);
    cbn [Inclusive.maxevents Inclusive.trials app];
    rewrite ?last_cons; reflexivity.
Qed.

(** The [-h] text of fastjet-inclusive shows, as the defaults of [-m] and
    [-n], the values these options were last given before the [-h], and
    the built-in [-1] and [8] only where none was given.  The run exits
    there with code [-1]: the options after the [-h] and the operands play
    no part. *)
Theorem help_text_shows_the_values_given_so_far (w : World)
    (a b : list Inclusive.getopt_item) (operands : list string) :
  InclusiveRun.first_stop a = None ->
  Inclusive.main w (Inclusive.mkCommandLine (a ++ Inclusive.opt_h :: b)
                                            operands)
  = (Exited (-1),
     [Cout (MsgUsageHelp (given_maxevents a (-1)) (given_trials a 8))]).
Proof.
  intros Hs. unfold Inclusive.main. cbn [Inclusive.getopt_items].
  now rewrite (parse_options_help a b Hs), bind_exited.
Qed.

Lemma help_text_shows_the_values_given_so_far_witness :
  let w := Sample.two_event_world in
  Inclusive.main w (Inclusive.mkCommandLine
                      ([Inclusive.opt_n 3; Inclusive.opt_m 5;
                        Inclusive.opt_n 2]
                       ++ Inclusive.opt_h :: [Inclusive.opt_m 7])
                      [])
  = (Exited (-1), [Cout (MsgUsageHelp 5 2)]).
Proof.
  cbv zeta.
  exact (help_text_shows_the_values_given_so_far
           Sample.two_event_world
           [Inclusive.opt_n 3; Inclusive.opt_m 5; Inclusive.opt_n 2]
           [Inclusive.opt_m 7] [] eq_refl).
Defined.

Lemma bind_ext {A B : Type} (m : M A) (f g : A -> M B) :
  (forall a, f a = g a) -> bind m f = bind m g.
Proof.
  intros H. destruct m as [[a | c | |] t]; unfold bind; try reflexivity.
  now rewrite H.
Qed.

(** An option of fastjet-inclusive whose argument converts and that is
    given again later, with no [-h] between the two, has no effect: the
    run is the one of the command line without the earlier occurrence. *)
Theorem repeated_option_last_wins (w : World)
    (i j : Inclusive.getopt_item) (a b c : list Inclusive.getopt_item)
    (operands : list string) :
  same_option i j = true ->
  ~ In Inclusive.opt_h b ->
  Inclusive.main w (Inclusive.mkCommandLine (a ++ i :: b ++ j :: c) operands)
  = Inclusive.main w (Inclusive.mkCommandLine (a ++ b ++ j :: c) operands).
Proof.
  intros H Hh. unfold Inclusive.main. cbn [Inclusive.getopt_items].
  rewrite !parse_options_app.
  rewrite (bind_ext _ (Inclusive.parse_options (i :: b ++ j :: c))
                    (Inclusive.parse_options (b ++ j :: c))
                    (parse_options_overridden i j b c H Hh)).
  reflexivity.
Qed.

Lemma repeated_option_last_wins_witness :
  let w := Sample.two_event_world in
  let first := Inclusive.opt_n 3 in
  let last := Inclusive.opt_n 1 in
  same_option first last = true
  /\ ~ In Inclusive.opt_h [Inclusive.opt_p 0]
  /\ Inclusive.main w (Inclusive.mkCommandLine
                         ([Inclusive.opt_d "-"%string] ++ first
                          :: [Inclusive.opt_p 0] ++ last :: [])
                         ["events.hepmc3"%string])
     = Inclusive.main w (Inclusive.mkCommandLine
                           ([Inclusive.opt_d "-"%string]
                            ++ [Inclusive.opt_p 0] ++ last :: [])
                           ["events.hepmc3"%string]).
Proof.
  cbv zeta.
  assert (Hh : ~ In Inclusive.opt_h [Inclusive.opt_p 0])
    by (intros [F | []]; discriminate).
  split; [reflexivity |]. split; [exact Hh |].
  exact (repeated_option_last_wins Sample.two_event_world
           (Inclusive.opt_n 3) (Inclusive.opt_n 1)
           [Inclusive.opt_d "-"%string] [Inclusive.opt_p 0] []
           ["events.hepmc3"%string] eq_refl Hh).
Defined.

(** ** The debug dump of a cluster sequence *)

Lemma int_of_id (z : Z) : is_int z -> FinderDebug.int_of z = z.
Proof.
  unfold is_int, FinderDebug.int_of. intros H.
  rewrite Z.mod_small by lia. lia.
Qed.

Lemma dump_jets_length (jets : list PseudoJet) :
  forall i, List.length (FinderDebug.dump_jets jets i) = List.length jets.
Proof.
  induction jets as [| jet rest IH]; intros i; cbn; [| rewrite IH];
    reflexivity.
Qed.

Lemma dump_jets_nth (jets : list PseudoJet) :
  forall i k jet,
    - 2 ^ 31 <= i ->
    i + Z.of_nat (List.length jets) < 2 ^ 31 ->
    nth_error jets k = Some jet ->
    nth_error (FinderDebug.dump_jets jets i) k
    = Some (FinderDebug.JetLine (i + Z.of_nat k) (px jet) (py jet) (pz jet)
                                (E jet)).
Proof.
  induction jets as [| j rest IH]; intros i k jet Hlo Hhi H.
  - destruct k; discriminate.
  - cbn [List.length] in Hhi.
    destruct k as [| k]; cbn [nth_error FinderDebug.dump_jets] in *.
    + injection H as ->. now rewrite Z.add_0_r.
    + rewrite int_of_id by (unfold is_int; lia).
      rewrite (IH (i + 1) k jet) by (try exact H; lia).
      do 2 f_equal. lia.
Qed.

Lemma dump_history_length (history : list FinderDebug.history_element) :
  forall i,
    List.length (FinderDebug.dump_history history i) = List.length history.
Proof.
  induction history as [| he rest IH]; intros i; cbn; [| rewrite IH];
    reflexivity.
Qed.

Lemma dump_history_nth (history : list FinderDebug.history_element) :
  forall i k he,
    - 2 ^ 31 <= i ->
    i + Z.of_nat (List.length history) < 2 ^ 31 ->
    Forall (fun he => is_int (FinderDebug.parent1 he + 1)
                      /\ is_int (FinderDebug.parent2 he + 1)
                      /\ is_int (FinderDebug.child he + 1)) history ->
    nth_error history k = Some he ->
    nth_error (FinderDebug.dump_history history i) k
    = Some (FinderDebug.HistoryLine
              (i + Z.of_nat k)
              (FinderDebug.parent1 he + 1) (FinderDebug.parent2 he + 1)
              (FinderDebug.child he + 1)
              (FinderDebug.dij he) (FinderDebug.max_dij_so_far he)).
Proof.
  induction history as [| h rest IH]; intros i k he Hlo Hhi Hr H.
  - destruct k; discriminate.
  - cbn [List.length] in Hhi. inversion Hr as [| ? ? [H1 [H2 H3]] Hr'].
    subst.
    destruct k as [| k]; cbn [nth_error FinderDebug.dump_history] in *.
    + injection H as ->. now rewrite Z.add_0_r, !int_of_id.
    + rewrite (int_of_id (i + 1)) by (unfold is_int; lia).
      rewrite (IH (i + 1) k he) by (try assumption; lia).
      do 2 f_equal. lia.
Qed.

(** As long as no [int] overflows (fewer than [2^31 - 1] jets and history
    steps, and no parent or child equal to [INT_MAX]), the debug dump of
    a cluster sequence prints one line for each jet, then one line for
    each history step.  The line of the jet at position [k] (from 0)
    carries the number [k + 1] and the jet's momentum; the line of the
    history step at position [k] carries the number [k + 1] and the
    step's parents and child each raised by one, so that fastjet's "no
    parent" [-1] is printed as [0]. *)
Theorem dump_clusterseq_counts_from_1 (jets : list PseudoJet)
    (history : list FinderDebug.history_element) :
  Z.of_nat (List.length jets) < 2 ^ 31 - 1 ->
  Z.of_nat (List.length history) < 2 ^ 31 - 1 ->
  Forall (fun he => is_int (FinderDebug.parent1 he + 1)
                    /\ is_int (FinderDebug.parent2 he + 1)
                    /\ is_int (FinderDebug.child he + 1)) history ->
  let out := FinderDebug.dump_clusterseq jets history in
  List.length out = (List.length jets + List.length history)%nat
  /\ (forall k jet,
        nth_error jets k = Some jet ->
        nth_error out k
        = Some (FinderDebug.JetLine (Z.of_nat k + 1) (px jet) (py jet)
                                    (pz jet) (E jet)))
  /\ (forall k he,
        nth_error history k = Some he ->
        nth_error out (List.length jets + k)
        = Some (FinderDebug.HistoryLine
                  (Z.of_nat k + 1)
                  (FinderDebug.parent1 he + 1) (FinderDebug.parent2 he + 1)
                  (FinderDebug.child he + 1)
                  (FinderDebug.dij he) (FinderDebug.max_dij_so_far he))).
Proof.
  intros Hj Hh Hr. cbv zeta. unfold FinderDebug.dump_clusterseq.
  split; [| split].
  - now rewrite length_app, dump_jets_length, dump_history_length.
  - intros k jet H. rewrite nth_error_app1.
    + rewrite (dump_jets_nth jets 1 k jet) by (try exact H; lia).
      now rewrite Z.add_comm.
    + rewrite dump_jets_length. apply nth_error_Some. now rewrite H.
  - intros k he H. rewrite nth_error_app2; rewrite dump_jets_length;
      [| lia].
    replace (List.length jets + k - List.length jets)%nat with k by lia.
    rewrite (dump_history_nth history 1 k he) by (try assumption; lia).
    now rewrite Z.add_comm.
Qed.

Lemma dump_clusterseq_counts_from_1_witness :
  let jet := mkPseudoJet 1 2 3 4 in
  let step := FinderDebug.mkHistoryElement (-1) (-1) 0 0 0 in
  nth_error (FinderDebug.dump_clusterseq [jet] [step]) 0
  = Some (FinderDebug.JetLine 1 1 2 3 4)
  /\ nth_error (FinderDebug.dump_clusterseq [jet] [step]) 1
     = Some (FinderDebug.HistoryLine 1 0 0 1 0 0).
Proof.
  cbv zeta.
  assert (Hr : Forall (fun he => is_int (FinderDebug.parent1 he + 1)
                                 /\ is_int (FinderDebug.parent2 he + 1)
                                 /\ is_int (FinderDebug.child he + 1))
                      [FinderDebug.mkHistoryElement (-1) (-1) 0 0 0])
    by (repeat constructor; cbn; lia).
  destruct (dump_clusterseq_counts_from_1
              [mkPseudoJet 1 2 3 4]
              [FinderDebug.mkHistoryElement (-1) (-1) 0 0 0]
              ltac:(cbn; lia) ltac:(cbn; lia) Hr) as [_ [Hjet Hstep]].
  split.
  - exact (Hjet 0%nat (mkPseudoJet 1 2 3 4) eq_refl).
  - exact (Hstep 0%nat (FinderDebug.mkHistoryElement (-1) (-1) 0 0 0)
                 eq_refl).
Defined.

(** ** The event generators *)

Section Generators.

Variable g : Genevts.Generator.

Lemma count_charged_spec (ev : list Genevts.Particle) :
  forall n,
    Genevts.count_charged ev n
    = n + Z.of_nat (List.length (final_charged ev)).
Proof.
  induction ev as [| p rest IH]; intros n;
    cbn [Genevts.count_charged final_charged filter List.length].
  - lia.
  - rewrite IH. fold (final_charged rest).
    destruct (Genevts.isFinal p && Genevts.isCharged p);
      cbn [List.length]; lia.
Qed.

Lemma event_loop_spec_out (file : string) (n : nat) :
  forall p,
    Genevts.event_loop g file n p
    = (generator_after (next_calls g p n) p,
       flat_map (after_call g file) (next_calls g p n)).
Proof.
  unfold generator_after.
  induction n as [| n IH]; intros p;
    cbn [Genevts.event_loop next_calls flat_map map]; [reflexivity |].
  rewrite last_cons.
  specialize (IH (snd (Genevts.next g p))).
  destruct (Genevts.next g p) as [ok p']. cbn [snd fst] in *.
  unfold after_call at 1. cbn [fst snd].
  rewrite IH. destruct ok; cbn [negb app]; f_equal.
  all: generalize (map snd (next_calls g p' n)); intros l;
    destruct l as [| x l]; [reflexivity | now rewrite !last_cons].
Qed.

Lemma generate_out (file : string) (settings : list string) :
  let calls := next_calls g (initialized g settings) 100 in
  Genevts.generate g file settings
  = (0, flat_map (after_call g file) calls
        ++ [Genevts.Stat (generator_after calls (initialized g settings));
            Genevts.PrintHist]).
Proof.
  cbv zeta. unfold Genevts.generate. fold (initialized g settings).
  now rewrite event_loop_spec_out.
Qed.

Lemma next_calls_length (n : nat) :
  forall p, List.length (next_calls g p n) = n.
Proof.
  induction n as [| n IH]; intros p; cbn [next_calls List.length];
    [| rewrite IH]; reflexivity.
Qed.

Lemma written_after_calls (file : string)
    (calls : list (bool * Genevts.Pythia g)) :
  written file (flat_map (after_call g file) calls) = generated g calls.
Proof.
  unfold written, generated.
  induction calls as [| [ok p] rest IH]; [reflexivity |].
  cbn [flat_map filter fst map]. rewrite flat_map_app, IH.
  unfold after_call. cbn [fst snd]. destruct ok; [| reflexivity].
  cbn [flat_map app map snd]. now rewrite String.eqb_refl.
Qed.

Lemma filled_after_calls (file : string)
    (calls : list (bool * Genevts.Pythia g)) :
  filled (flat_map (after_call g file) calls)
  = map (fun ev => Z.of_nat (List.length (final_charged ev)))
        (generated g calls).
Proof.
  unfold filled, generated.
  induction calls as [| [ok p] rest IH]; [reflexivity |].
  cbn [flat_map filter fst map]. rewrite flat_map_app, IH.
  unfold after_call. cbn [fst snd]. destruct ok; [| reflexivity].
  cbn [flat_map app map snd]. now rewrite count_charged_spec.
Qed.

Lemma nexts_after_calls (file : string)
    (calls : list (bool * Genevts.Pythia g)) :
  nexts (flat_map (after_call g file) calls) = map fst calls.
Proof.
  unfold nexts.
  induction calls as [| [ok p] rest IH]; [reflexivity |].
  cbn [flat_map map fst]. rewrite flat_map_app, IH.
  unfold after_call. cbn [fst snd]. destruct ok; reflexivity.
Qed.

Lemma stat_calls_after_calls (file : string)
    (calls : list (bool * Genevts.Pythia g)) :
  stat_calls (flat_map (after_call g file) calls) = [].
Proof.
  unfold stat_calls.
  induction calls as [| [ok p] rest IH]; [reflexivity |].
  cbn [flat_map]. rewrite flat_map_app, IH.
  unfold after_call. cbn [fst snd]. destruct ok; reflexivity.
Qed.

Lemma failures_and_successes (calls : list (bool * Genevts.Pythia g)) :
  (List.length (generated g calls) + failures calls
   = List.length calls)%nat.
Proof.
  unfold generated, failures. rewrite length_map.
  induction calls as [| [ok p] rest IH]; [reflexivity |].
  cbn [filter fst negb List.length]. destruct ok; cbn [negb List.length]; lia.
Qed.

Lemma generate_written (file : string) (settings : list string) :
  let start := initialized g settings in
  let calls := next_calls g start 100 in
  let run := Genevts.generate g file settings in
  fst run = 0
  /\ nexts (snd run) = map fst calls
  /\ List.length (nexts (snd run)) = 100%nat
  /\ stat_calls (snd run) = [generator_after calls start]
  /\ written file (snd run) = generated g calls
  /\ (List.length (written file (snd run)) + failures calls = 100)%nat.
Proof.
  cbv zeta. rewrite generate_out. cbv zeta. cbn [fst snd].
  set (start := initialized g settings).
  set (calls := next_calls g start 100).
  assert (En : nexts (flat_map (after_call g file) calls
                      ++ [Genevts.Stat (generator_after calls start);
                          Genevts.PrintHist])
               = map fst calls).
  { unfold nexts at 1. rewrite flat_map_app. cbn [flat_map app].
    rewrite app_nil_r. apply nexts_after_calls. }
  assert (Ew : written file
                 (flat_map (after_call g file) calls
                  ++ [Genevts.Stat (generator_after calls start);
                      Genevts.PrintHist])
               = generated g calls).
  { unfold written at 1. rewrite flat_map_app. cbn [flat_map app].
    rewrite app_nil_r. apply written_after_calls. }
  rewrite En, Ew. split; [reflexivity |]. split; [reflexivity |].
  split; [rewrite length_map; apply next_calls_length |].
  split; [| split; [reflexivity |]].
  - unfold stat_calls at 1. rewrite flat_map_app. cbn [flat_map app].
    fold (stat_calls (flat_map (after_call g file) calls)).
    now rewrite stat_calls_after_calls.
  - rewrite failures_and_successes. apply next_calls_length.
Qed.

Lemma generate_filled (file : string) (settings : list string) :
  let run := Genevts.generate g file settings in
  filled (snd run)
  = map (fun ev => Z.of_nat (List.length (final_charged ev)))
        (written file (snd run)).
Proof.
  cbv zeta. rewrite generate_out. cbv zeta. cbn [snd].
  unfold filled at 1, written at 1. rewrite !flat_map_app.
  cbn [flat_map app]. rewrite !app_nil_r.
  fold (filled (flat_map (after_call g file)
                         (next_calls g (initialized g settings) 100))).
  fold (written file (flat_map (after_call g file)
                         (next_calls g (initialized g settings) 100))).
  now rewrite filled_after_calls, written_after_calls.
Qed.

End Generators.

(** Each generator program calls [pythia.next()] exactly 100 times, each
    call on the generator the one before left, and [pythia.stat()] once,
    on the generator the hundredth call left.  It writes to its file the
    events of the calls that succeeded, in order: a failed call is skipped
    and not made up for, so the file holds 100 events less the number of
    failures.  The program returns 0. *)
Theorem generators_write_the_generated_events (g : Genevts.Generator) :
  (let start := initialized g GenevtsAA.settings in
   let calls := next_calls g start 100 in
   let run := GenevtsAA.main g in
   fst run = 0
   /\ nexts (snd run) = map fst calls
   /\ List.length (nexts (snd run)) = 100%nat
   /\ stat_calls (snd run) = [generator_after calls start]
   /\ written "events-AuAu.hepmc3" (snd run) = generated g calls
   /\ (List.length (written "events-AuAu.hepmc3" (snd run))
       + failures calls = 100)%nat)
  /\ (let start := initialized g GenevtsEe.settings in
      let calls := next_calls g start 100 in
      let run := GenevtsEe.main g in
      fst run = 0
      /\ nexts (snd run) = map fst calls
      /\ List.length (nexts (snd run)) = 100%nat
      /\ stat_calls (snd run) = [generator_after calls start]
      /\ written "events-ee-120.hepmc3" (snd run) = generated g calls
      /\ (List.length (written "events-ee-120.hepmc3" (snd run))
          + failures calls = 100)%nat).
Proof.
  split; [apply (generate_written g "events-AuAu.hepmc3" GenevtsAA.settings)
         | apply (generate_written g "events-ee-120.hepmc3"
                                   GenevtsEe.settings)].
Qed.

(** The histogram of each generator program receives one value for each
    event written, in the same order: the number of particles of the
    event that are both final and charged. *)
Theorem generators_fill_the_charged_multiplicity (g : Genevts.Generator) :
  filled (snd (GenevtsAA.main g))
  = map (fun ev => Z.of_nat (List.length (final_charged ev)))
        (written "events-AuAu.hepmc3" (snd (GenevtsAA.main g)))
  /\ filled (snd (GenevtsEe.main g))
     = map (fun ev => Z.of_nat (List.length (final_charged ev)))
           (written "events-ee-120.hepmc3" (snd (GenevtsEe.main g))).
Proof.
  split; [apply (generate_filled g "events-AuAu.hepmc3" GenevtsAA.settings)
         | apply (generate_filled g "events-ee-120.hepmc3"
                                  GenevtsEe.settings)].
Qed.

(** ** The "dijmax:" lines of the finder *)





(** ** The radius and the Durham algorithm *)

(** With [--algorithm Durham] the jet definition is built without the
    radius: whatever [-R] is, the run does and prints the same. *)
Theorem durham_ignores_radius (w : World) (o : Finder.options) (r : float) :
  Finder.alg o = "Durham"%string ->
  Finder.main w (with_R o r) = Finder.main w o.
Proof.
  destruct o as [h me se tr st pw al r0 pt dj nj du dbg args].
  unfold with_R. cbn. intros ->. reflexivity.
Qed.

Lemma durham_ignores_radius_witness :
  let durham := Finder.mkOptions
                  0 (-1) 0 1 "Best" (-1) "Durham" default_R
                  None None (Some 2) None false
                  ["events.hepmc3"%string] in
  Finder.main Sample.two_event_world (with_R durham 1)
  = Finder.main Sample.two_event_world durham.
Proof.
  cbv zeta. apply durham_ignores_radius. reflexivity.
Defined.
